(** * HyperBEAM JavaScript client: a shallow embedding and its properties

    This development embeds [docs/tutorial/hyperbeam-client-example.js]
    (classes [HyperBEAMClient], [ProcessClient], [HyperBEAMUtils] and
    [ProcessDashboard]) and states the properties of the client as theorems.

    Conventions of the embedding:
    - a JavaScript string is the sequence of the bytes of its UTF-8 encoding
      ([string] of the Standard Library); only well-formed strings are
      represented;
    - a JavaScript number is an integer ([Z]); the embedding covers the safe
      integers ([safe_integer]), whose [toString] is their decimal notation:
      a property that depends on how a number is written is stated for safe
      integers only;
    - a value holds no function: a property named [toString] of an object
      is therefore never callable, and the conversion of such an object to
      a string throws;
    - an object is a plain object, with the prototype [Object.prototype];
      one used as a record of parameters is the list of its own enumerable
      string-keyed properties, in the order [Object.entries] yields them;
      one used as a header map is a [gmap];
    - what is thrown is an error object, an instance of [Error] with its
      message ([js_error]); a callback that throws another value is not
      represented;
    - a function that may throw returns a [result]; asynchronous methods run
      in the monad [M] over a [world] holding the network oracle, the
      timers and the trace of observable events. *)

From Stdlib Require Import ZArith String Ascii List DecimalString Permutation.
From stdpp Require Import base gmap strings list.
Import ListNotations.

Local Open Scope Z_scope.
Local Set Warnings "-register-all".

(** ** Results of operations that may throw *)

Inductive js_error : Type :=
| Error (message : string)          (* [new Error(message)] *)
| TypeError (message : string)      (* raised by the engine or by [fetch] *)
| SyntaxError (message : string)    (* raised by [response.json()] *)
| TimeoutError (message : string)   (* the rejection of a request that timed out *)
| RangeError (message : string).    (* raised by [AbortSignal.timeout] itself *)

Inductive result (A : Type) : Type :=
| Ok (a : A)
| Throw (e : js_error).

Arguments Ok {A} a.
Arguments Throw {A} e.

#[global] Instance result_ret : MRet result := fun A a => Ok a.

#[global] Instance result_bind : MBind result := fun A B f r =>
  match r with
  | Ok a => f a
  | Throw e => Throw e
  end.

(** A function that may throw, applied to the elements of a list from left
    to right: the first throw is the result. *)
Definition map_result {A B} (f : A -> result B) : list A -> result (list B) :=
  fix go (l : list A) : result (list B) :=
    match l with
    | [] => Ok []
    | x :: rest =>
        match f x with
        | Ok y =>
            match go rest with
            | Ok ys => Ok (y :: ys)
            | Throw e => Throw e
            end
        | Throw e => Throw e
        end
    end.

Definition error_message (e : js_error) : string :=
  match e with
  | Error m | TypeError m | SyntaxError m | TimeoutError m | RangeError m => m
  end.

(** ** Strings *)

Module Str.

(** [Array.prototype.join] on already converted elements. *)
Definition join (sep : string) (l : list string) : string :=
  String.concat sep l.

(** [String.prototype.includes]. *)
Fixpoint includes (s sub : string) : bool :=
  if String.prefix sub s then true
  else match s with
       | EmptyString => false
       | String _ s' => includes s' sub
       end.

(** Every character of the string satisfies [p]. *)
Fixpoint all (p : ascii -> bool) (s : string) : bool :=
  match s with
  | EmptyString => true
  | String c s' => p c && all p s'
  end.

(** The part of [s] before the first occurrence of the character [c]
    (the whole of [s] when [c] does not occur). *)
Fixpoint before (c : ascii) (s : string) : string :=
  match s with
  | EmptyString => EmptyString
  | String x s' => if Ascii.eqb x c then EmptyString else String x (before c s')
  end.

(** Decimal notation of an integer, as [Number.prototype.toString] gives
    it for a safe integer. *)
Definition dec (z : Z) : string := NilZero.string_of_int (Z.to_int z).

End Str.

(** ** JavaScript values *)

Inductive jsval : Type :=
| VUndef
| VNull
| VBool (b : bool)
| VNum (z : Z)
| VStr (s : string)
| VArr (elems : list jsval)
| VObj (props : list (string * jsval)).

Definition typeof (v : jsval) : string :=
  match v with
  | VUndef => "undefined"
  | VNull => "object"
  | VBool _ => "boolean"
  | VNum _ => "number"
  | VStr _ => "string"
  | VArr _ => "object"
  | VObj _ => "object"
  end.

(** Induction on a value through the elements of its lists. *)
Section JsvalInduction.

Variable P : jsval -> Prop.
Hypothesis Hundef : P VUndef.
Hypothesis Hnull : P VNull.
Hypothesis Hbool : forall b, P (VBool b).
Hypothesis Hnum : forall z, P (VNum z).
Hypothesis Hstr : forall s, P (VStr s).
Hypothesis Harr : forall elems, Forall P elems -> P (VArr elems).
Hypothesis Hobj : forall props, P (VObj props).

Fixpoint jsval_elements_ind (v : jsval) : P v :=
  match v with
  | VUndef => Hundef
  | VNull => Hnull
  | VBool b => Hbool b
  | VNum z => Hnum z
  | VStr s => Hstr s
  | VArr elems =>
      Harr elems
        ((fix all (l : list jsval) : Forall P l :=
            match l with
            | [] => @List.Forall_nil jsval P
            | e :: rest =>
                @List.Forall_cons jsval P e rest (jsval_elements_ind e) (all rest)
            end) elems)
  | VObj props => Hobj props
  end.

End JsvalInduction.

Definition Array_isArray (v : jsval) : bool :=
  match v with VArr _ => true | _ => false end.

(** The integers that a number holds exactly and that every other number
    differs from: between [-(2^53 - 1)] and [2^53 - 1]. *)
Definition safe_integer (z : Z) : Prop :=
  - 9007199254740991 <= z <= 9007199254740991.

(** The object has an own property of the name [key]. *)
Definition has_own (key : string) (props : list (string * jsval)) : bool :=
  existsb (fun kv => String.eqb (fst kv) key) props.

(** The abstract operation ToString (string conversion in a template literal
    and in [Array.prototype.join]). An array converts through [join(",")],
    where [undefined] and [null] elements give the empty string and the
    elements are converted from left to right. An object converts through
    its [toString]: the one of [Object.prototype] gives [[object Object]];
    an own property [toString] hides it and, being no function, leaves
    [valueOf], which gives no primitive value: the conversion throws. *)
Fixpoint ToString (v : jsval) : result string :=
  match v with
  | VUndef => Ok "undefined"
  | VNull => Ok "null"
  | VBool b => Ok (if b then "true" else "false")
  | VNum z => Ok (Str.dec z)
  | VStr s => Ok s
  | VArr elems =>
      match
        map_result (fun e => match e with
                             | VUndef | VNull => Ok EmptyString
                             | _ => ToString e
                             end) elems
      with
      | Ok ss => Ok (Str.join "," ss)
      | Throw err => Throw err
      end
  | VObj props =>
      if has_own "toString" props
      then Throw (TypeError "Cannot convert object to primitive value")
      else Ok "[object Object]"
  end.

(** An element of an array as [join] converts it. *)
Definition join_element (e : jsval) : result string :=
  match e with
  | VUndef | VNull => Ok EmptyString
  | _ => ToString e
  end.

(** [value.join(sep)] on an array. *)
Definition Array_join (elems : list jsval) (sep : string) : result string :=
  match map_result join_element elems with
  | Ok ss => Ok (Str.join sep ss)
  | Throw e => Throw e
  end.

(** The method call [value.toString()]: a property access on [undefined] or
    [null] throws, and so does the call of an own property [toString], which
    is no function. *)
Definition toString_method (v : jsval) : result string :=
  match v with
  | VUndef => Throw (TypeError "Cannot read properties of undefined (reading 'toString')")
  | VNull => Throw (TypeError "Cannot read properties of null (reading 'toString')")
  | VObj props =>
      if has_own "toString" props
      then Throw (TypeError "value.toString is not a function")
      else Ok "[object Object]"
  | _ => ToString v
  end.

(** [Object.entries(value)] for the values of the embedding. *)
Definition Object_entries (v : jsval) : result (list (string * jsval)) :=
  match v with
  | VUndef | VNull => Throw (TypeError "Cannot convert undefined or null to object")
  | VObj props => Ok props
  | VArr elems =>
      Ok (List.map (fun '(i, e) => (Str.dec (Z.of_nat i), e))
            (List.combine (List.seq 0 (List.length elems)) elems))
  | VStr s =>
      Ok (List.map (fun '(i, c) => (Str.dec (Z.of_nat i), VStr (String c EmptyString)))
            (List.combine (List.seq 0 (String.length s)) (list_ascii_of_string s)))
  | VBool _ | VNum _ => Ok []
  end.

(** ** [URLSearchParams]: the application/x-www-form-urlencoded serializer *)

Module URLSearchParams.

(** The list of name-value pairs, in the order of the [append] calls. *)
Definition t : Type := list (string * string).

Definition new : t := [].

Definition append (p : t) (name value : string) : t := p ++ [(name, value)].

Definition is_alnum (c : ascii) : bool :=
  let n := N_of_ascii c in
  ((48 <=? n) && (n <=? 57) || (65 <=? n) && (n <=? 90)
   || (97 <=? n) && (n <=? 122))%N.

(** Bytes outside the application/x-www-form-urlencoded percent-encode
    set: the ASCII alphanumerics and [*], [-], [.], [_]. *)
Definition unreserved (c : ascii) : bool :=
  is_alnum c
  || Ascii.eqb c "*" || Ascii.eqb c "-" || Ascii.eqb c "." || Ascii.eqb c "_".

Definition hex_digit (n : N) : ascii :=
  (if n <? 10 then ascii_of_N (48 + n) else ascii_of_N (55 + n))%N.

(** [%XX], with upper-case hexadecimal digits. *)
Definition percent_encode_byte (c : ascii) : string :=
  let n := N_of_ascii c in
  String "%" (String (hex_digit (n / 16)) (String (hex_digit (n mod 16)) EmptyString)).

Definition encode_byte (c : ascii) : string :=
  if Ascii.eqb c " " then "+"
  else if unreserved c then String c EmptyString
  else percent_encode_byte c.

(** Percent-encoding of a name or a value, the space as [+]. *)
Fixpoint encode (s : string) : string :=
  match s with
  | EmptyString => EmptyString
  | String c s' => encode_byte c +:+ encode s'
  end.

Definition serialize_pair (nv : string * string) : string :=
  encode (fst nv) +:+ "=" +:+ encode (snd nv).

(** [queryParams.toString()]. *)
Definition toString (p : t) : string :=
  Str.join "&" (List.map serialize_pair p).

End URLSearchParams.

(** ** [HyperBEAMUtils] *)

Module HyperBEAMUtils.

(** The map branch of [createTypedQuery]:
    [Object.entries(value).map(([k, v]) => `${k}=${v}`).join(';')]. *)
Definition mapString (value : jsval) : result string :=
  entries ← Object_entries value;
  strings ← map_result (fun '(k, v) => s ← ToString v; Ok (k +:+ "=" +:+ s)) entries;
  Ok (Str.join ";" strings).

(** One iteration of the loop of [createTypedQuery]: the pair appended for
    the entry [key], [value]. *)
Definition typed_pair (key : string) (value : jsval) : result (string * string) :=
  if String.eqb (typeof value) "number" then
    match toString_method value with
    | Ok s => Ok (key +:+ "+integer", s)
    | Throw e => Throw e
    end
  else if Array_isArray value then
    match value with
    | VArr elems =>
        match Array_join elems "," with
        | Ok s => Ok (key +:+ "+list", s)
        | Throw e => Throw e
        end
    | _ => Throw (TypeError "value.join is not a function")
    end
  else if String.eqb (typeof value) "object" then
    match mapString value with
    | Ok s => Ok (key +:+ "+map", s)
    | Throw e => Throw e
    end
  else
    match toString_method value with
    | Ok s => Ok (key, s)
    | Throw e => Throw e
    end.

(** The [for ... of Object.entries(params)] loop. *)
Fixpoint append_entries (entries : list (string * jsval))
    (queryParams : URLSearchParams.t) : result URLSearchParams.t :=
  match entries with
  | [] => Ok queryParams
  | (key, value) :: rest =>
      match typed_pair key value with
      | Ok (name, s) => append_entries rest (URLSearchParams.append queryParams name s)
      | Throw e => Throw e
      end
  end.

(** [static createTypedQuery(params)]. *)
Definition createTypedQuery (params : list (string * jsval)) : result string :=
  match append_entries params URLSearchParams.new with
  | Ok queryParams => Ok (URLSearchParams.toString queryParams)
  | Throw e => Throw e
  end.

(** [static buildPath(device, path = '', params = {})]. *)
Definition buildPath (device path : string) (params : list (string * jsval))
  : result string :=
  match
    (if (0 <? Z.of_nat (List.length params))
     then match createTypedQuery params with
          | Ok q => Ok ("?" +:+ q)
          | Throw e => Throw e
          end
     else Ok EmptyString)
  with
  | Throw e => Throw e
  | Ok query =>
      Ok ("/" +:+ device +:+ query +:+
          (if String.eqb path "" then EmptyString else "/" +:+ path))
  end.

End HyperBEAMUtils.

(** ** [JSON.stringify] *)

Module JSON.

Definition dquote : ascii := "034"%char.

Definition hex_lower (n : N) : ascii :=
  (if n <? 10 then ascii_of_N (48 + n) else ascii_of_N (87 + n))%N.

(** The escape of one code unit in QuoteJSONString. *)
Definition escape_char (c : ascii) : string :=
  let n := N_of_ascii c in
  (if n =? 8 then "\b"
   else if n =? 9 then "\t"
   else if n =? 10 then "\n"
   else if n =? 12 then "\f"
   else if n =? 13 then "\r"
   else if n =? 34 then String "\" (String dquote EmptyString)
   else if n =? 92 then "\\"
   else if n <? 32 then
     "\u00" +:+ String (hex_lower (n / 16)) (String (hex_lower (n mod 16)) EmptyString)
   else String c EmptyString)%N.

Fixpoint escape (s : string) : string :=
  match s with
  | EmptyString => EmptyString
  | String c s' => escape_char c +:+ escape s'
  end.

Definition quote (s : string) : string :=
  String dquote (escape s +:+ String dquote EmptyString).

(** Serialization of a value in a position where a value is required: an
    [undefined] element of an array is written [null], a property whose
    value is [undefined] is left out. *)
Fixpoint serialize (v : jsval) : string :=
  match v with
  | VUndef | VNull => "null"
  | VBool b => if b then "true" else "false"
  | VNum z => Str.dec z
  | VStr s => quote s
  | VArr elems => "[" +:+ Str.join "," (List.map serialize elems) +:+ "]"
  | VObj props =>
      "{" +:+
      Str.join ","
        (List.flat_map
           (fun '(k, v') => match v' with
                            | VUndef => []
                            | _ => [quote k +:+ ":" +:+ serialize v']
                            end) props)
      +:+ "}"
  end.

(** [JSON.stringify(value)]; [None] is the result [undefined]. *)
Definition stringify (v : jsval) : option string :=
  match v with
  | VUndef => None
  | _ => Some (serialize v)
  end.

End JSON.


(** ** The world: network, timers, clock and observable events *)

Record request : Type := mkRequest {
  req_method : string;
  req_url : string;
  req_headers : gmap string string;
  req_body : option string;
  req_timeout : Z
}.

(** A response as the client can observe it: [json_body] and [text_body]
    are what [response.json()] and [response.text()] settle to. *)
Record response : Type := mkResponse {
  status : Z;
  statusText : string;
  content_type : option string;
  json_body : result jsval;
  text_body : result string
}.

(** [response.ok]: the status is in the range 200 to 299. *)
Definition response_ok (r : response) : bool :=
  (200 <=? status r) && (status r <=? 299).

Inductive fetch_outcome : Type :=
| Responds (r : response)
| Rejects (e : js_error).

Inductive event : Type :=
| EFetch (ticket : nat) (rq : request)
| EReadJson (ticket : nat)
| EReadText (ticket : nat)
| ESleep (ms : Z)
| EWarn (label message : string)
| EError (label : string) (e : js_error)
| EInvoke (subscriber : nat) (state : jsval)
| ESetInterval (handle : positive) (ms : Z)
| EClearInterval (handle : positive).

Record world : Type := mkWorld {
  net : nat -> request -> fetch_outcome;  (* outcome of the n-th [fetch] call *)
  fetched : nat;                          (* number of [fetch] calls so far *)
  timers : gmap positive Z;               (* the active [setInterval] timers and their period *)
  next_timer : positive;                  (* the next handle [setInterval] returns *)
  clock : string;                         (* [new Date().toISOString()] *)
  trace : list event
}.

Definition emit (e : event) (w : world) : world :=
  mkWorld (net w) (fetched w) (timers w) (next_timer w) (clock w) (trace w ++ [e]).

(** ** The monad of effectful, possibly throwing computations *)

Definition M (A : Type) : Type := world -> result A * world.

#[global] Instance M_ret : MRet M := fun A a w => (Ok a, w).

#[global] Instance M_bind : MBind M := fun A B f m w =>
  match m w with
  | (Ok a, w') => f a w'
  | (Throw e, w') => (Throw e, w')
  end.

Definition throw {A} (e : js_error) : M A := fun w => (Throw e, w).

(** [try { body } catch (error) { handler }]. *)
Definition try_catch {A} (body : M A) (handler : js_error -> M A) : M A :=
  fun w =>
    match body w with
    | (Ok a, w') => (Ok a, w')
    | (Throw e, w') => handler e w'
    end.

Definition lift {A} (r : result A) : M A := fun w => (r, w).

Definition log (e : event) : M unit := fun w => (Ok tt, emit e w).

(** A pending request: the ticket of the [fetch] call and the request. *)
Definition pending : Type := nat * request.

(** The call [fetch(url, init)]: the request leaves at once. *)
Definition fetch_start (rq : request) : M pending := fun w =>
  (Ok (fetched w, rq),
   mkWorld (net w) (S (fetched w)) (timers w) (next_timer w) (clock w)
     (trace w ++ [EFetch (fetched w) rq])).

(** [await] on the promise of a [fetch]. *)
Definition fetch_settle (p : pending) : M response := fun w =>
  match net w (fst p) (snd p) with
  | Responds r => (Ok r, w)
  | Rejects e => (Throw e, w)
  end.

Definition response_json (p : pending) (r : response) : M jsval :=
  _ ← log (EReadJson (fst p)); lift (json_body r).

Definition response_text (p : pending) (r : response) : M jsval :=
  _ ← log (EReadText (fst p));
  s ← lift (text_body r);
  mret (VStr s).

(** [await new Promise(resolve => setTimeout(resolve, interval))]: the
    timeout it sets has run out when the computation goes on, and is
    recorded as the event [ESleep]; it is no entry of [timers], which holds
    the interval timers. *)
Definition sleep (ms : Z) : M unit := log (ESleep ms).

Definition setInterval (ms : Z) : M positive := fun w =>
  (Ok (next_timer w),
   mkWorld (net w) (fetched w) (<[next_timer w := ms]> (timers w))
     (Pos.succ (next_timer w)) (clock w)
     (trace w ++ [ESetInterval (next_timer w) ms])).

Definition clearInterval (h : positive) : M unit := fun w =>
  (Ok tt,
   mkWorld (net w) (fetched w) (delete h (timers w)) (next_timer w) (clock w)
     (trace w ++ [EClearInterval h])).

Definition Date_now_iso : M string := fun w => (Ok (clock w), w).

(** [AbortSignal.timeout(ms)], which validates its argument before it
    returns the signal: Node.js, for which the file is written, accepts the
    integers from 0 to [2^32 - 1] and throws a [RangeError] on any other
    value (a browser accepts the integers up to [2^53 - 1] and throws a
    [TypeError]). The timer of the signal shows in the outcome of the
    request only, a rejection with [TimeoutError]. *)
Definition AbortSignal_timeout (ms : Z) : result unit :=
  if (0 <=? ms) && (ms <=? 4294967295) then Ok tt
  else Throw (RangeError "The value of 'delay' is out of range").

(** ** [HyperBEAMClient] *)

Record request_options : Type := mkOptions {
  opt_headers : gmap string string;
  opt_debug : bool
}.

Definition no_options : request_options := mkOptions ∅ false.

Module HyperBEAMClient.

Record t : Type := mk {
  nodeUrl : string;
  defaultHeaders : gmap string string;
  timeout : Z
}.

(** [constructor(options = {})]: [||] replaces a missing or falsy option
    by its default. *)
Definition new (o_nodeUrl : option string)
    (o_headers : option (gmap string string)) (o_timeout : option Z) : t :=
  mk (match o_nodeUrl with
      | Some u => if String.eqb u "" then "http://localhost:10000" else u
      | None => "http://localhost:10000"
      end)
     (default ∅ o_headers)
     (match o_timeout with
      | Some n => if n =? 0 then 30000 else n
      | None => 30000
      end).

(** The part of [get] and [post] after the response has arrived. *)
Definition read_response (p : pending) (r : response) : M jsval :=
  if negb (response_ok r) then
    throw (Error ("HTTP " +:+ Str.dec (status r) +:+ ": " +:+ statusText r))
  else
    match content_type r with
    | Some contentType =>
        if negb (String.eqb contentType "")
           && Str.includes contentType "application/json"
        then response_json p r
        else response_text p r
    | None => response_text p r
    end.

Definition get_request (c : t) (path : string) (options : request_options)
  : request :=
  mkRequest "GET" (nodeUrl c +:+ path)
    (opt_headers options ∪ defaultHeaders c) None (timeout c).

(** The [catch] block of [get] and [post]. *)
Definition rethrow (label : string) (options : request_options)
    (error : js_error) : M jsval :=
  _ ← (if opt_debug options then log (EError label error) else mret tt);
  throw error.

(** [async get(path, options = {})]. The argument of [fetch] is evaluated
    inside the [try] before [fetch] is called: when [AbortSignal.timeout]
    throws, no request is made. *)
Definition get (c : t) (path : string) (options : request_options) : M jsval :=
  try_catch
    (_ ← lift (AbortSignal_timeout (timeout c));
     p ← fetch_start (get_request c path options);
     response ← fetch_settle p;
     read_response p response)
    (rethrow ("GET " +:+ nodeUrl c +:+ path +:+ " failed:") options).

(** What a call of [get] has done when it returns its promise: it has
    called [fetch] and waits for the answer, or it has thrown before the
    call and its promise is rejected. *)
Inductive started : Type :=
| Issued (p : pending)
| Refused (e : js_error).

(** [get] up to its first [await]. *)
Definition get_begin (c : t) (path : string) (options : request_options)
  : M started :=
  match AbortSignal_timeout (timeout c) with
  | Ok _ => p ← fetch_start (get_request c path options); mret (Issued p)
  | Throw error =>
      _ ← (if opt_debug options
           then log (EError ("GET " +:+ nodeUrl c +:+ path +:+ " failed:") error)
           else mret tt);
      mret (Refused error)
  end.

(** [get] from its first [await] on. *)
Definition get_end (c : t) (path : string) (options : request_options)
    (s : started) : M jsval :=
  match s with
  | Issued p =>
      try_catch
        (response ← fetch_settle p; read_response p response)
        (rethrow ("GET " +:+ nodeUrl c +:+ path +:+ " failed:") options)
  | Refused error => throw error
  end.

(** The [body] of a POST request. *)
Definition post_body (data : jsval) : option string :=
  if String.eqb (typeof data) "string"
  then match data with VStr s => Some s | _ => None end
  else JSON.stringify data.

Definition post_request (c : t) (path : string) (data : jsval)
    (options : request_options) : request :=
  mkRequest "POST" (nodeUrl c +:+ path)
    (opt_headers options ∪ defaultHeaders c
     ∪ {["Content-Type" := "application/json"]})
    (post_body data) (timeout c).

(** [async post(path, data = {}, options = {})]. *)
Definition post (c : t) (path : string) (data : jsval)
    (options : request_options) : M jsval :=
  let data := match data with VUndef => VObj [] | _ => data end in
  try_catch
    (_ ← lift (AbortSignal_timeout (timeout c));
     p ← fetch_start (post_request c path data options);
     response ← fetch_settle p;
     read_response p response)
    (rethrow ("POST " +:+ nodeUrl c +:+ path +:+ " failed:") options).

(** [async getNodeInfo()]. *)
Definition getNodeInfo (c : t) : M jsval := get c "/~meta@1.0/info" no_options.

End HyperBEAMClient.

(** ** [ProcessClient] *)

Module ProcessClient.

Record t : Type := mk {
  client : HyperBEAMClient.t;
  processId : string;
  basePath : string
}.

(** [constructor(client, processId)]. *)
Definition new (client : HyperBEAMClient.t) (processId : string) : t :=
  mk client processId ("/" +:+ processId +:+ "~process@1.0").

Definition state_path (pc : t) : string := basePath pc +:+ "/now".
Definition schedule_path (pc : t) : string := basePath pc +:+ "/schedule".
Definition cache_path (pc : t) (key : string) : string :=
  if String.eqb key "" then basePath pc +:+ "/compute/cache"
  else basePath pc +:+ "/compute/cache/" +:+ key.

(** [async getCurrentState()]. *)
Definition getCurrentState (pc : t) : M jsval :=
  HyperBEAMClient.get (client pc) (state_path pc) no_options.

(** [async getCachedState()]. *)
Definition getCachedState (pc : t) : M jsval :=
  HyperBEAMClient.get (client pc) (basePath pc +:+ "/compute") no_options.

(** [async getSchedule()]. *)
Definition getSchedule (pc : t) : M jsval :=
  HyperBEAMClient.get (client pc) (schedule_path pc) no_options.

(** [async getCacheData(key = '')]. *)
Definition getCacheData (pc : t) (key : string) : M jsval :=
  HyperBEAMClient.get (client pc) (cache_path pc key) no_options.

(** [async sendMessage(action, data = {}, headers = {})]. *)
Definition sendMessage (pc : t) (action : string) (data : jsval)
    (headers : gmap string string) : M jsval :=
  let data := match data with VUndef => VObj [] | _ => data end in
  HyperBEAMClient.post (client pc) (schedule_path pc) data
    (mkOptions (headers ∪ {["Action" := action]}) false).

(** [async getData(path)]. *)
Definition getData (pc : t) (path : string) : M jsval :=
  HyperBEAMClient.get (client pc) (basePath pc +:+ "/compute/" +:+ path) no_options.

(** The error thrown after the loop of [waitForStateChange]. *)
Definition PredicateNotMet (maxAttempts : nat) : js_error :=
  Error ("State change not detected after " +:+ Str.dec (Z.of_nat maxAttempts)
         +:+ " attempts").

(** One iteration of the loop of [waitForStateChange], for the index [i]:
    [Some state] is the [return state] inside the loop, [None] lets the
    loop go on. [checkFunction] gives the truth value of what the
    callback returns, or the error object it throws. *)
Definition attempt (pc : t) (checkFunction : jsval -> result bool)
    (maxAttempts : nat) (interval : Z) (i : nat) : M (option jsval) :=
  try_catch
    (state ← getCurrentState pc;
     satisfied ← lift (checkFunction state);
     if (satisfied : bool) then mret (Some state)
     else (_ ← sleep interval; mret None))
    (fun error =>
       _ ← log (EWarn ("Attempt " +:+ Str.dec (Z.of_nat i + 1) +:+ " failed:")
                  (error_message error));
       if Z.of_nat i =? Z.of_nat maxAttempts - 1 then throw error
       else mret None).

(** The loop [for (let i = 0; i < maxAttempts; i++)] from the index [i] on,
    with [remaining = maxAttempts - i] iterations to go, and the [throw]
    that follows it. *)
Fixpoint attempts_from (pc : t) (checkFunction : jsval -> result bool)
    (maxAttempts : nat) (interval : Z) (remaining i : nat) : M jsval :=
  match remaining with
  | O => throw (PredicateNotMet maxAttempts)
  | S remaining' =>
      r ← attempt pc checkFunction maxAttempts interval i;
      match r with
      | Some state => mret state
      | None =>
          attempts_from pc checkFunction maxAttempts interval remaining' (S i)
      end
  end.

(** [async waitForStateChange(checkFunction, maxAttempts = 10, interval = 2000)]. *)
Definition waitForStateChange (pc : t) (checkFunction : jsval -> result bool)
    (maxAttempts : nat) (interval : Z) : M jsval :=
  attempts_from pc checkFunction maxAttempts interval maxAttempts 0.

End ProcessClient.

(** ** [Promise.all] *)

Module Promise.

(** The order in which [n] promises settle: the indices that [order]
    names, each at its first occurrence, then those it does not name
    ([remove_dups] keeps the last occurrence of an element, hence the two
    reversals). *)
Definition arrival_order (n : nat) (order : list nat) : list nat :=
  List.rev
    (remove_dups
       (List.rev (List.filter (fun i => Nat.ltb i n) order ++ List.seq 0 n))).

(** The continuations run as their promises settle; the first rejection
    is thrown. *)
Fixpoint await_in_order {A} (conts : list (M A)) (order : list nat)
  : M (list (nat * A)) :=
  match order with
  | [] => mret []
  | i :: rest =>
      match conts !! i with
      | Some m =>
          a ← m;
          settled ← await_in_order conts rest;
          mret ((i, a) :: settled)
      | None => await_in_order conts rest
      end
  end.

Definition value_of {A} (settled : list (nat * A)) (i : nat) : option A :=
  snd <$> List.find (fun ia => Nat.eqb (fst ia) i) settled.

(** [await Promise.all(conts)]: the values in the order of the promises,
    or the rejection that comes first in time. The trace ends where the
    promise of [Promise.all] settles. *)
Definition all {A} (conts : list (M A)) (order : list nat) : M (list A) :=
  settled ← await_in_order conts (arrival_order (List.length conts) order);
  mret (omap (value_of settled) (List.seq 0 (List.length conts))).

End Promise.

(** ** [ProcessDashboard] *)

Module ProcessDashboard.

(** A registered callback: [sub_call] is its outcome on a state, a normal
    return or a throw; [sub_id] names it in the trace. *)
Record subscriber : Type := mkSubscriber {
  sub_id : nat;
  sub_call : jsval -> result unit
}.

Record t : Type := mk {
  client : HyperBEAMClient.t;
  process : ProcessClient.t;
  subscribers : list subscriber;
  pollingInterval : option positive
}.

Record dashboard_data : Type := mkData {
  dd_state : jsval;
  dd_schedule : jsval;
  dd_cache : jsval;
  dd_timestamp : string
}.

(** [constructor(client, processId)]. *)
Definition new (client : HyperBEAMClient.t) (processId : string) : t :=
  mk client (ProcessClient.new client processId) [] None.

(** [subscribe(callback)]. *)
Definition subscribe (d : t) (callback : subscriber) : t :=
  mk (client d) (process d) (subscribers d ++ [callback]) (pollingInterval d).

Definition set_pollingInterval (d : t) (h : option positive) : t :=
  mk (client d) (process d) (subscribers d) h.

(** [notifySubscribers(state)]: the body of the [forEach]. *)
Definition notify_one (state : jsval) (callback : subscriber) : M unit :=
  try_catch
    (_ ← log (EInvoke (sub_id callback) state);
     lift (sub_call callback state))
    (fun error => log (EError "Subscriber callback error:" error)).

Fixpoint forEach {A} (l : list A) (f : A -> M unit) : M unit :=
  match l with
  | [] => mret tt
  | x :: rest => _ ← f x; forEach rest f
  end.

(** [notifySubscribers(state)]. *)
Definition notifySubscribers (d : t) (state : jsval) : M unit :=
  forEach (subscribers d) (notify_one state).

(** The callback that [startPolling] hands to [setInterval], up to its
    [await]: the call [this.process.getCurrentState()]. *)
Definition tick_begin (d : t) : M HyperBEAMClient.started :=
  HyperBEAMClient.get_begin (ProcessClient.client (process d))
    (ProcessClient.state_path (process d)) no_options.

(** The callback from its [await] on. [d] is the dashboard when the answer
    arrives: [this.subscribers] is read then (the field [process] is
    assigned by the constructor only). *)
Definition tick_end (d : t) (s : HyperBEAMClient.started) : M unit :=
  try_catch
    (state ← HyperBEAMClient.get_end (ProcessClient.client (process d))
               (ProcessClient.state_path (process d)) no_options s;
     notifySubscribers d state)
    (fun error => log (EError "Polling error:" error)).

(** A tick during which nothing else happens to the dashboard. *)
Definition tick (d : t) : M unit :=
  s ← tick_begin d; tick_end d s.

(** [startPolling(interval = 5000)]. *)
Definition startPolling (d : t) (interval : Z) : M t :=
  _ ← match pollingInterval d with
      | Some h => clearInterval h
      | None => mret tt
      end;
  h ← setInterval interval;
  mret (set_pollingInterval d (Some h)).

(** [stopPolling()]. *)
Definition stopPolling (d : t) : M t :=
  match pollingInterval d with
  | Some h => _ ← clearInterval h; mret (set_pollingInterval d None)
  | None => mret d
  end.

(** The timer [h] fires: its callback runs if the timer is still active. *)
Definition fire (d : t) (h : positive) : M unit := fun w =>
  match timers w !! h with
  | Some _ => tick d w
  | None => (Ok tt, w)
  end.

(** The timer [h] fires and its callback runs up to its [await]. *)
Definition fire_begin (d : t) (h : positive) : M unit := fun w =>
  match timers w !! h with
  | Some _ => (_ ← tick_begin d; mret tt) w
  | None => (Ok tt, w)
  end.

(** [async getDashboardData()]. The three calls are made before any of
    them is awaited; [order] is the order in which their promises settle.
    The trace ends where the promise of [getDashboardData] settles: what the
    calls still in flight do after a rejection is left out. *)
Definition getDashboardData (d : t) (order : list nat) : M dashboard_data :=
  let pc := process d in
  let c := ProcessClient.client pc in
  try_catch
    (s0 ← HyperBEAMClient.get_begin c (ProcessClient.state_path pc) no_options;
     s1 ← HyperBEAMClient.get_begin c (ProcessClient.schedule_path pc) no_options;
     s2 ← HyperBEAMClient.get_begin c (ProcessClient.cache_path pc "") no_options;
     values ← Promise.all
       [ HyperBEAMClient.get_end c (ProcessClient.state_path pc) no_options s0;
         HyperBEAMClient.get_end c (ProcessClient.schedule_path pc) no_options s1;
         try_catch
           (HyperBEAMClient.get_end c (ProcessClient.cache_path pc "") no_options s2)
           (fun _ => mret VNull) ]
       order;
     timestamp ← Date_now_iso;
     mret (mkData (default VUndef (values !! 0%nat))
                  (default VUndef (values !! 1%nat))
                  (default VUndef (values !! 2%nat))
                  timestamp))
    (fun error =>
       _ ← log (EError "Dashboard data fetch error:" error);
       throw error).

End ProcessDashboard.


(** * The vocabulary of the properties *)

(** The characters a serialized query is made of. *)
Definition query_char (c : ascii) : bool :=
  URLSearchParams.unreserved c
  || Ascii.eqb c "+" || Ascii.eqb c "%" || Ascii.eqb c "=" || Ascii.eqb c "&".

(** The values whose conversion to a string does not throw: no object
    with an own property [toString] is reached through the elements of
    lists. *)
Fixpoint printable (v : jsval) : bool :=
  match v with
  | VArr elems => forallb printable elems
  | VObj props => negb (has_own "toString" props)
  | _ => true
  end.

(** The values of a parameter for which an iteration of [createTypedQuery]
    does not throw: neither [undefined] nor [null], a list of printable
    elements, an object of printable values. *)
Definition encodable (value : jsval) : bool :=
  match value with
  | VUndef | VNull => false
  | VArr elems => forallb printable elems
  | VObj props => forallb (fun kv => printable (snd kv)) props
  | _ => true
  end.

(** The text of one entry of a map, as [mapString] builds it. *)
Definition map_entry (kv : string * jsval) : result string :=
  let '(k, v) := kv in s ← ToString v; Ok (k +:+ "=" +:+ s).

(** The keys that [Object.entries] lists in the order of their insertion:
    a key that does not start with a digit is no array index. *)
Definition plain_key (key : string) : bool :=
  match key with
  | EmptyString => true
  | String c _ => negb ((48 <=? N_of_ascii c) && (N_of_ascii c <=? 57))%N
  end.

(** The keys are pairwise distinct. *)
Fixpoint distinct (keys : list string) : bool :=
  match keys with
  | [] => true
  | key :: rest => negb (existsb (String.eqb key) rest) && distinct rest
  end.

(** The entries of an object as [Object.entries] lists them when they are
    the properties in the order of their insertion: the keys are distinct
    and none is an array index. *)
Definition insertion_ordered (entries : list (string * jsval)) : bool :=
  distinct (List.map fst entries)
  && forallb (fun kv => plain_key (fst kv)) entries.

(** The timeouts that [AbortSignal.timeout] accepts, in Node.js and in a
    browser alike. *)
Definition valid_timeout (c : HyperBEAMClient.t) : Prop :=
  0 <= HyperBEAMClient.timeout c <= 4294967295.

(** The error of [AbortSignal.timeout] on a timeout it refuses. *)
Definition TimeoutOutOfRange : js_error :=
  RangeError "The value of 'delay' is out of range".

(** The segment [path] occurs in the part of the address [out] that precedes
    its first [?]. *)
Definition path_precedes_query (out path : string) : bool :=
  Str.includes (Str.before "?" out) path.

(** The world after the events [evs]. *)
Definition emits (evs : list event) (w : world) : world :=
  fold_left (fun w e => emit e w) evs w.

(** The world after the call of [fetch] on [rq]. *)
Definition issued (rq : request) (w : world) : world :=
  mkWorld (net w) (S (fetched w)) (timers w) (next_timer w) (clock w)
    (trace w ++ [EFetch (fetched w) rq]).

(** The test of [get] and [post] on the declared content kind. *)
Definition declares_json (r : response) : bool :=
  match content_type r with
  | Some contentType =>
      negb (String.eqb contentType "") && Str.includes contentType "application/json"
  | None => false
  end.

(** The error of a response whose status is not a success. *)
Definition RequestFailed (r : response) : js_error :=
  Error ("HTTP " +:+ Str.dec (status r) +:+ ": " +:+ statusText r).

(** What [get] and [post] settle to, as a function of what the network
    answers. *)
Definition settle_result (o : fetch_outcome) : result jsval :=
  match o with
  | Rejects e => Throw e
  | Responds r =>
      if negb (response_ok r) then Throw (RequestFailed r)
      else if declares_json r then json_body r
      else match text_body r with
           | Ok s => Ok (VStr s)
           | Throw e => Throw e
           end
  end.

(** The reads of the body that [get] and [post] make. *)
Definition settle_events (ticket : nat) (o : fetch_outcome) : list event :=
  match o with
  | Rejects _ => []
  | Responds r =>
      if negb (response_ok r) then []
      else if declares_json r then [EReadJson ticket]
      else [EReadText ticket]
  end.

(** The report of the [catch] block of [get] and [post]. *)
Definition debug_events (label : string) (options : request_options)
    (r : result jsval) : list event :=
  match r with
  | Throw e => if opt_debug options then [EError label e] else []
  | Ok _ => []
  end.

Definition is_body_read (e : event) : bool :=
  match e with
  | EReadJson _ | EReadText _ => true
  | _ => false
  end.

Definition is_fetch (e : event) : bool :=
  match e with
  | EFetch _ _ => true
  | _ => false
  end.

(** A world in which every request is answered by [r]. *)
Definition answering (r : response) : world :=
  mkWorld (fun _ _ => Responds r) 0 ∅ 1 "2024-01-01T00:00:00.000Z" [].

Definition not_found : response :=
  mkResponse 404 "Not Found" (Some "text/plain")
    (Throw (SyntaxError "Unexpected token")) (Ok "no such process").

(** The result of the iteration [i] of the loop when the predicate is not
    satisfied: the loop goes on, unless the request fails on the last
    iteration. *)
Definition attempt_result (maxAttempts i : nat) (r : result jsval)
  : result (option jsval) :=
  match r with
  | Ok _ => Ok None
  | Throw e =>
      if Z.of_nat i =? Z.of_nat maxAttempts - 1 then Throw e else Ok None
  end.

(** The requests of [n] iterations of the loop of [waitForStateChange] that
    start in the world [w], each for [rq]. *)
Definition requests_from (rq : request) (w : world) (n : nat) : list event :=
  List.map (fun k => EFetch (fetched w + k)%nat rq) (List.seq 0 n).

(** A network on which the first request fails and the later ones are
    answered by a text that satisfies no predicate. *)
Definition flaky : world :=
  mkWorld (fun n _ =>
             match n with
             | O => Rejects (TypeError "fetch failed")
             | _ => Responds (mkResponse 200 "OK" (Some "text/plain")
                                (Throw (SyntaxError "Unexpected token")) (Ok "pending"))
             end)
    0 ∅ 1 "2024-01-01T00:00:00.000Z" [].

(** The events of the delivery of [state] to one callback. *)
Definition delivery (state : jsval) (callback : ProcessDashboard.subscriber)
  : list event :=
  EInvoke (ProcessDashboard.sub_id callback) state
  :: match ProcessDashboard.sub_call callback state with
     | Ok _ => []
     | Throw e => [EError "Subscriber callback error:" e]
     end.

(** What a call of [get] that has started settles to, and the reads of
    the body it makes. *)
Definition started_result (nt : nat -> request -> fetch_outcome)
    (s : HyperBEAMClient.started) : result jsval :=
  match s with
  | HyperBEAMClient.Issued p => settle_result (nt (fst p) (snd p))
  | HyperBEAMClient.Refused e => Throw e
  end.

Definition started_events (nt : nat -> request -> fetch_outcome)
    (s : HyperBEAMClient.started) : list event :=
  match s with
  | HyperBEAMClient.Issued p => settle_events (fst p) (nt (fst p) (snd p))
  | HyperBEAMClient.Refused _ => []
  end.

(** The events of a tick from the arrival of the answer on, when the
    callbacks registered then are [subscribers]. *)
Definition arrival_events (nt : nat -> request -> fetch_outcome)
    (subscribers : list ProcessDashboard.subscriber)
    (s : HyperBEAMClient.started) : list event :=
  started_events nt s
  ++ match started_result nt s with
     | Ok state => List.flat_map (delivery state) subscribers
     | Throw e => [EError "Polling error:" e]
     end.

(** The answer 200 with the text [ready]. *)
Definition ready : response :=
  mkResponse 200 "OK" (Some "text/plain")
    (Throw (SyntaxError "Unexpected token")) (Ok "ready").

(** A new dashboard for the process [proc] of the default node. *)
Definition observed : ProcessDashboard.t :=
  ProcessDashboard.new (HyperBEAMClient.new None None None) "proc".

(** A callback that throws on every state, and one that returns. *)
Definition faulty : ProcessDashboard.subscriber :=
  ProcessDashboard.mkSubscriber 1 (fun _ => Throw (Error "render failed")).

Definition steady : ProcessDashboard.subscriber :=
  ProcessDashboard.mkSubscriber 2 (fun _ => Ok tt).

Definition is_invoke (e : event) : bool :=
  match e with
  | EInvoke _ _ => true
  | _ => false
  end.

Module Engine.

(** What happens to a dashboard: calls of its methods, and the work of the
    event loop. A timer fires and its tick runs to its end before anything
    else happens ([Fire]); or a timer fires and its tick runs up to its
    [await] ([Begin]), and the answer of a tick in flight arrives later
    ([Arrive]), whatever has happened to the dashboard in between. *)
Inductive op : Type :=
| Start (interval : Z)
| Stop
| Subscribe (callback : ProcessDashboard.subscriber)
| Fire (h : positive)
| Begin (h : positive)
| Arrive (s : HyperBEAMClient.started).

Definition step (o : op) (d : ProcessDashboard.t) : M ProcessDashboard.t :=
  match o with
  | Start interval => ProcessDashboard.startPolling d interval
  | Stop => ProcessDashboard.stopPolling d
  | Subscribe callback => mret (ProcessDashboard.subscribe d callback)
  | Fire h => _ ← ProcessDashboard.fire d h; mret d
  | Begin h => _ ← ProcessDashboard.fire_begin d h; mret d
  | Arrive s => _ ← ProcessDashboard.tick_end d s; mret d
  end.

Fixpoint run (ops : list op) (d : ProcessDashboard.t) : M ProcessDashboard.t :=
  match ops with
  | [] => mret d
  | o :: rest => d' ← step o d; run rest d'
  end.

(** [setInterval] has not yet returned any handle from [next_timer w] on. *)
Definition handles_fresh (w : world) : Prop :=
  map_Forall (fun h _ => (h < next_timer w)%positive) (timers w).

(** The timer the engine holds: none when Idle, one when Polling. *)
Definition own_timers (d : ProcessDashboard.t) : gset positive :=
  match ProcessDashboard.pollingInterval d with
  | Some h => {[h]}
  | None => ∅
  end.

(** The timers of the world [w] are those of [w0], where the engine was
    created, and the one timer the engine holds, if any. *)
Definition inv (w0 : world) (d : ProcessDashboard.t) (w : world) : Prop :=
  handles_fresh w
  /\ match ProcessDashboard.pollingInterval d with
     | Some h =>
         timers w0 !! h = None
         /\ exists interval, timers w = <[h := interval]> (timers w0)
     | None => timers w = timers w0
     end.

End Engine.

(** What [Promise.all] collects from promises that settle to [rs], in the
    order [order]: the values up to the first rejection, or that
    rejection. *)
Fixpoint collect {A} (rs : list (result A)) (order : list nat)
  : result (list (nat * A)) :=
  match order with
  | [] => Ok []
  | i :: rest =>
      match rs !! i with
      | Some (Ok a) =>
          match collect rs rest with
          | Ok settled => Ok ((i, a) :: settled)
          | Throw e => Throw e
          end
      | Some (Throw e) => Throw e
      | None => collect rs rest
      end
  end.

(** The continuation [m] settles to [r] in every world over the network
    [nt], and only adds events that are no requests. *)
Definition settles_to {A} (nt : nat -> request -> fetch_outcome) (m : M A)
    (r : result A) : Prop :=
  forall w, net w = nt ->
    exists evs, m w = (r, emits evs w) /\ List.filter is_fetch evs = [].

(** What [await Promise.all] gives for promises that settle to [rs] in the
    order [order]. *)
Definition all_result {A} (rs : list (result A)) (order : list nat)
  : result (list A) :=
  match collect rs (Promise.arrival_order (List.length rs) order) with
  | Ok settled => Ok (omap (Promise.value_of settled) (List.seq 0 (List.length rs)))
  | Throw e => Throw e
  end.

(** The promise [i] settles before the promise [j] in the order [order]
    of three promises. *)
Definition settles_before (order : list nat) (i j : nat) : bool :=
  match List.find (fun k => Nat.eqb k i || Nat.eqb k j)
          (Promise.arrival_order 3 order) with
  | Some k => Nat.eqb k i
  | None => true
  end.

(** The six orders in which three promises settle. *)
Definition six_orders : list (list nat) :=
  [[0; 1; 2]; [0; 2; 1]; [1; 0; 2]; [1; 2; 0]; [2; 0; 1]; [2; 1; 0]]%nat.

(** A network on which the first request is rejected, the second is
    answered by 404 and the later ones by the text [ready]. *)
Definition failing : world :=
  mkWorld (fun n _ =>
             match n with
             | O => Rejects (TypeError "fetch failed")
             | S O => Responds not_found
             | _ => Responds ready
             end)
    0 ∅ 1 "2024-01-01T00:00:00.000Z" [].

(** The cached sub-tree as [getDashboardData] sees it: [null] when its
    request fails. *)
Definition best_effort (r : result jsval) : jsval :=
  match r with
  | Ok v => v
  | Throw _ => VNull
  end.

Definition is_report (e : event) : bool :=
  match e with
  | EError _ _ | EWarn _ _ => true
  | _ => false
  end.

Definition is_sleep (e : event) : bool :=
  match e with
  | ESleep _ => true
  | _ => false
  end.

(** A header of a request, looked up in the three objects that [get] and
    [post] spread, the last spread first. *)
Definition merged_header (options defaults base : gmap string string)
    (name : string) : option string :=
  match options !! name with
  | Some v => Some v
  | None =>
      match defaults !! name with
      | Some v => Some v
      | None => base !! name
      end
  end.

(** How an iteration of the loop of [waitForStateChange] ends, given what
    its request settles to. *)
Inductive verdict : Type :=
| Satisfied (state : jsval)
| Unsatisfied
| Failed (e : js_error).

Definition judge (checkFunction : jsval -> result bool) (r : result jsval)
  : verdict :=
  match r with
  | Throw e => Failed e
  | Ok state =>
      match checkFunction state with
      | Ok true => Satisfied state
      | Ok false => Unsatisfied
      | Throw e => Failed e
      end
  end.

Definition attempt_outcome (maxAttempts i : nat) (v : verdict)
  : result (option jsval) :=
  match v with
  | Satisfied state => Ok (Some state)
  | Unsatisfied => Ok None
  | Failed e =>
      if Z.of_nat i =? Z.of_nat maxAttempts - 1 then Throw e else Ok None
  end.

(** What an iteration does after the body of the response is read. *)
Definition attempt_tail (interval : Z) (i : nat) (v : verdict) : list event :=
  match v with
  | Satisfied _ => []
  | Unsatisfied => [ESleep interval]
  | Failed e =>
      [EWarn ("Attempt " +:+ Str.dec (Z.of_nat i + 1) +:+ " failed:")
         (error_message e)]
  end.

(** The number of requests that succeed among the [n] requests for [rq]
    from the ticket [ticket] on. *)
Fixpoint successes (nt : nat -> request -> fetch_outcome) (rq : request)
    (ticket n : nat) : nat :=
  match n with
  | O => O
  | S n' =>
      (match settle_result (nt ticket rq) with
       | Ok _ => 1
       | Throw _ => 0
       end + successes nt rq (S ticket) n')%nat
  end.

(** The answer 200 with a body that is declared JSON and does not parse. *)
Definition malformed : response :=
  mkResponse 200 "OK" (Some "application/json; charset=utf-8")
    (Throw (SyntaxError "Unexpected end of JSON input")) (Ok "{").

(** A network on which the first request fails, the second is answered by
    the text [pending] and the later ones by the text [done]. *)
Definition settling : world :=
  mkWorld (fun n _ =>
             match n with
             | O => Rejects (TypeError "fetch failed")
             | S O => Responds (mkResponse 200 "OK" (Some "text/plain")
                                  (Throw (SyntaxError "Unexpected token")) (Ok "pending"))
             | _ => Responds (mkResponse 200 "OK" (Some "text/plain")
                                (Throw (SyntaxError "Unexpected token")) (Ok "done"))
             end)
    0 ∅ 1 "2024-01-01T00:00:00.000Z" [].

(** The callbacks that the operations [ops] register, in their order. *)
Definition subscribed (ops : list Engine.op) : list ProcessDashboard.subscriber :=
  List.flat_map (fun o => match o with
                          | Engine.Subscribe callback => [callback]
                          | _ => []
                          end) ops.

(** The continuation [m] settles to [r] in every world over the network
    [nt], and only adds events that satisfy [p]. *)
Definition settles_within {A} (p : event -> bool)
    (nt : nat -> request -> fetch_outcome) (m : M A) (r : result A) : Prop :=
  forall w, net w = nt ->
    exists evs, m w = (r, emits evs w) /\ forallb p evs = true.

(** * Properties *)

(** ** Strings and the serializer *)

Lemma string_app_cons (x : ascii) (a b : string) :
  String x a +:+ b = String x (a +:+ b).
Proof. reflexivity. Qed.

Lemma string_app_assoc (a b c : string) : (a +:+ b) +:+ c = a +:+ (b +:+ c).
Proof.
  induction a as [|x a IH]; [reflexivity |].
  rewrite !string_app_cons. now f_equal.
Qed.

Lemma string_app_nil_r (a : string) : a +:+ "" = a.
Proof.
  induction a as [|x a IH]; [reflexivity |].
  rewrite string_app_cons. now f_equal.
Qed.

Lemma all_app (p : ascii -> bool) (a b : string) :
  Str.all p (a +:+ b) = Str.all p a && Str.all p b.
Proof.
  induction a as [|x a IH]; [reflexivity |].
  rewrite string_app_cons. simpl. rewrite IH. now rewrite andb_assoc.
Qed.

Lemma all_join (p : ascii -> bool) (sep : string) (l : list string) :
  Str.all p sep = true ->
  Forall (fun s => Str.all p s = true) l ->
  Str.all p (Str.join sep l) = true.
Proof.
  intros Hsep Hl. unfold Str.join.
  induction Hl as [|s l Hs Hl IH]; [reflexivity |].
  destruct l as [|s' l']; [exact Hs |].
  change (Str.all p (s +:+ sep +:+ String.concat sep (s' :: l')) = true).
  rewrite !all_app, Hs, Hsep, IH. reflexivity.
Qed.

Lemma encode_byte_query_char (c : ascii) :
  Str.all query_char (URLSearchParams.encode_byte c) = true.
Proof. destruct c as [[] [] [] [] [] [] [] []]; reflexivity. Qed.

Lemma encode_query_char (s : string) :
  Str.all query_char (URLSearchParams.encode s) = true.
Proof.
  induction s as [|c s IH]; simpl; [reflexivity |].
  now rewrite all_app, encode_byte_query_char, IH.
Qed.

Lemma toString_query_char (p : URLSearchParams.t) :
  Str.all query_char (URLSearchParams.toString p) = true.
Proof.
  unfold URLSearchParams.toString. apply all_join; [reflexivity |].
  induction p as [|nv p IH]; simpl; constructor; [| exact IH].
  unfold URLSearchParams.serialize_pair.
  now rewrite !all_app, !encode_query_char.
Qed.

Lemma all_weaken (p q : ascii -> bool) (s : string) :
  (forall c, p c = true -> q c = true) ->
  Str.all p s = true -> Str.all q s = true.
Proof.
  intros Hpq. induction s as [|c s IH]; simpl; [reflexivity |].
  intros [Hc Hs]%andb_true_iff. now rewrite (Hpq c Hc), IH.
Qed.

(** ** Conversions to strings that throw *)

Lemma ToString_array (elems : list jsval) :
  ToString (VArr elems) = Array_join elems ",".
Proof. reflexivity. Qed.

Lemma map_result_app {A B} (f : A -> result B) (l1 l2 : list A) :
  map_result f (l1 ++ l2)
  = match map_result f l1 with
    | Ok ys1 =>
        match map_result f l2 with
        | Ok ys2 => Ok (ys1 ++ ys2)
        | Throw e => Throw e
        end
    | Throw e => Throw e
    end.
Proof.
  induction l1 as [|x l1 IH]; simpl.
  - destruct (map_result f l2); reflexivity.
  - destruct (f x) as [y|e]; [| reflexivity].
    rewrite IH. destruct (map_result f l1) as [ys1|e]; [| reflexivity].
    destruct (map_result f l2); reflexivity.
Qed.

Lemma map_result_length {A B} (f : A -> result B) (l : list A) (ys : list B) :
  map_result f l = Ok ys -> List.length ys = List.length l.
Proof.
  revert ys. induction l as [|x l IH]; intros ys; simpl.
  - now intros [= <-].
  - destruct (f x) as [y|e]; [| discriminate].
    destruct (map_result f l) as [ys'|e]; [| discriminate].
    intros [= <-]. simpl. now rewrite (IH ys').
Qed.

(** A function throws on no element accepted by [ok] and throws a
    [TypeError] on every other: so does its [map_result]. *)
Lemma map_result_cases {A B} (f : A -> result B) (ok : A -> bool) (l : list A) :
  Forall (fun x => (ok x = true /\ exists y, f x = Ok y)
                   \/ (ok x = false /\ exists m, f x = Throw (TypeError m))) l ->
  (forallb ok l = true /\ exists ys, map_result f l = Ok ys)
  \/ (forallb ok l = false /\ exists m, map_result f l = Throw (TypeError m)).
Proof.
  induction 1 as [|x l Hx Hl IH]; simpl.
  - left. split; [reflexivity | now exists []].
  - destruct Hx as [[-> [y ->]] | [-> [m ->]]]; simpl.
    + destruct IH as [[-> [ys ->]] | [-> [m ->]]].
      * left. split; [reflexivity | now exists (y :: ys)].
      * right. split; [reflexivity | now exists m].
    + right. split; [reflexivity | now exists m].
Qed.

Lemma ToString_cases (v : jsval) :
  (printable v = true /\ exists s, ToString v = Ok s)
  \/ (printable v = false /\ exists m, ToString v = Throw (TypeError m)).
Proof.
  induction v as [| |b|z|s|elems IH|props] using jsval_elements_ind;
    try (left; split; [reflexivity | eexists; reflexivity]).
  - rewrite ToString_array. unfold Array_join.
    change (printable (VArr elems)) with (forallb printable elems).
    destruct (map_result_cases join_element printable elems) as [[-> [ys ->]] | [-> [m ->]]].
    + apply Forall_impl with (1 := IH). intros e He.
      destruct e; try exact He; left; split; try reflexivity; eexists; reflexivity.
    + left. split; [reflexivity | eexists; reflexivity].
    + right. split; [reflexivity | now exists m].
  - simpl. destruct (has_own "toString" props); simpl.
    + right. split; [reflexivity | eexists; reflexivity].
    + left. split; [reflexivity | eexists; reflexivity].
Qed.

Lemma Array_join_cases (elems : list jsval) (sep : string) :
  (forallb printable elems = true /\ exists s, Array_join elems sep = Ok s)
  \/ (forallb printable elems = false
      /\ exists m, Array_join elems sep = Throw (TypeError m)).
Proof.
  unfold Array_join.
  destruct (map_result_cases join_element printable elems) as [[-> [ys ->]] | [-> [m ->]]].
  - apply Forall_forall. intros e _. pose proof (ToString_cases e) as He.
    destruct e; try exact He; left; split; try reflexivity; eexists; reflexivity.
  - left. split; [reflexivity | eexists; reflexivity].
  - right. split; [reflexivity | now exists m].
Qed.

Lemma mapString_object (props : list (string * jsval)) :
  HyperBEAMUtils.mapString (VObj props)
  = match map_result map_entry props with
    | Ok strings => Ok (Str.join ";" strings)
    | Throw e => Throw e
    end.
Proof. reflexivity. Qed.

Lemma mapString_cases (props : list (string * jsval)) :
  (forallb (fun kv => printable (snd kv)) props = true
   /\ exists s, HyperBEAMUtils.mapString (VObj props) = Ok s)
  \/ (forallb (fun kv => printable (snd kv)) props = false
      /\ exists m, HyperBEAMUtils.mapString (VObj props) = Throw (TypeError m)).
Proof.
  rewrite mapString_object.
  destruct (map_result_cases map_entry (fun kv => printable (snd kv)) props)
    as [[-> [ys ->]] | [-> [m ->]]].
  - apply Forall_forall. intros [k v] _. simpl.
    destruct (ToString_cases v) as [[-> [s ->]] | [-> [m ->]]].
    + left. split; [reflexivity | eexists; reflexivity].
    + right. split; [reflexivity | eexists; reflexivity].
  - left. split; [reflexivity | eexists; reflexivity].
  - right. split; [reflexivity | now exists m].
Qed.

Lemma typed_pair_list (key : string) (elems : list jsval) :
  HyperBEAMUtils.typed_pair key (VArr elems)
  = match Array_join elems "," with
    | Ok s => Ok (key +:+ "+list", s)
    | Throw e => Throw e
    end.
Proof. reflexivity. Qed.

Lemma typed_pair_map (key : string) (props : list (string * jsval)) :
  HyperBEAMUtils.typed_pair key (VObj props)
  = match HyperBEAMUtils.mapString (VObj props) with
    | Ok s => Ok (key +:+ "+map", s)
    | Throw e => Throw e
    end.
Proof. reflexivity. Qed.

(** An iteration of [createTypedQuery] appends a pair for an encodable
    value and throws a [TypeError] for any other. *)
Lemma typed_pair_cases (key : string) (value : jsval) :
  (encodable value = true /\ exists nv, HyperBEAMUtils.typed_pair key value = Ok nv)
  \/ (encodable value = false
      /\ exists m, HyperBEAMUtils.typed_pair key value = Throw (TypeError m)).
Proof.
  destruct value as [| |b|z|s|elems|props].
  - right. split; [reflexivity | eexists; reflexivity].
  - right. split; [reflexivity | eexists; reflexivity].
  - left. split; [reflexivity | eexists; reflexivity].
  - left. split; [reflexivity | eexists; reflexivity].
  - left. split; [reflexivity | eexists; reflexivity].
  - rewrite typed_pair_list. simpl encodable.
    destruct (Array_join_cases elems ",") as [[-> [s ->]] | [-> [m ->]]].
    + left. split; [reflexivity | eexists; reflexivity].
    + right. split; [reflexivity | now exists m].
  - rewrite typed_pair_map. simpl encodable.
    destruct (mapString_cases props) as [[-> [s ->]] | [-> [m ->]]].
    + left. split; [reflexivity | eexists; reflexivity].
    + right. split; [reflexivity | now exists m].
Qed.


(** The loop appends, in the order of the entries, the pair of each entry. *)
Lemma append_entries_spec (entries : list (string * jsval)) :
  forall (acc out : URLSearchParams.t),
    HyperBEAMUtils.append_entries entries acc = Ok out <->
    exists pairs,
      Forall2 (fun kv nv => HyperBEAMUtils.typed_pair (fst kv) (snd kv) = Ok nv)
        entries pairs
      /\ out = acc ++ pairs.
Proof.
  induction entries as [|[key value] rest IH]; intros acc out; simpl.
  - split.
    + intros [= <-]. exists []. split; [constructor | now rewrite app_nil_r].
    + intros (pairs & HF & ->). inversion HF. now rewrite app_nil_r.
  - destruct (HyperBEAMUtils.typed_pair key value) as [[name s]|e] eqn:E.
    + rewrite IH. unfold URLSearchParams.append. split.
      * intros (pairs & HF & ->). exists ((name, s) :: pairs). split.
        -- constructor; [exact E | exact HF].
        -- now rewrite <- app_assoc.
      * intros (pairs & HF & ->). inversion HF as [|kv nv l l' Hnv HF']; subst.
        simpl in Hnv. rewrite E in Hnv. injection Hnv as <-.
        exists l'. split; [exact HF' | now rewrite <- app_assoc].
    + split; [discriminate |].
      intros (pairs & HF & _). inversion HF as [|kv nv l l' Hnv HF']; subst.
      simpl in Hnv. rewrite E in Hnv. discriminate.
Qed.

Lemma createTypedQuery_spec (params : list (string * jsval)) (q : string) :
  HyperBEAMUtils.createTypedQuery params = Ok q <->
  exists pairs,
    Forall2 (fun kv nv => HyperBEAMUtils.typed_pair (fst kv) (snd kv) = Ok nv)
      params pairs
    /\ q = URLSearchParams.toString pairs.
Proof.
  unfold HyperBEAMUtils.createTypedQuery.
  destruct (HyperBEAMUtils.append_entries params URLSearchParams.new) as [out|e] eqn:E.
  - apply append_entries_spec in E as (pairs & HF & ->). simpl. split.
    + intros [= <-]. now exists pairs.
    + intros (pairs' & HF' & ->). f_equal. f_equal.
      clear -HF HF'. revert pairs' HF'.
      induction HF as [|kv nv l l' H HF IH]; intros pairs' HF'; inversion HF'; subst;
        [reflexivity |].
      f_equal; [congruence | now apply IH].
  - split; [discriminate |].
    intros (pairs & HF & _).
    assert (HyperBEAMUtils.append_entries params URLSearchParams.new
            = Ok (URLSearchParams.new ++ pairs)) as E'
      by (apply append_entries_spec; now exists pairs).
    rewrite E in E'. discriminate.
Qed.

(** ** [createTypedQuery] and [buildPath] *)

(** C1: on the parameters [{count: 42, items: ["apple", "banana"]}] the code
    returns the string [count%2Binteger=42&items%2Blist=apple%2Cbanana]: the
    parameters are in insertion order, but [URLSearchParams] percent-encodes
    the [+] of the type suffix and the [,] of the list, so the result is not
    the string [count+integer=42&items+list=apple,banana] of the tutorial. *)
Theorem createTypedQuery_count_items :
  HyperBEAMUtils.createTypedQuery
    [("count", VNum 42); ("items", VArr [VStr "apple"; VStr "banana"])]
  = Ok "count%2Binteger=42&items%2Blist=apple%2Cbanana"
  /\ HyperBEAMUtils.createTypedQuery
       [("count", VNum 42); ("items", VArr [VStr "apple"; VStr "banana"])]
     <> Ok "count+integer=42&items+list=apple,banana".
Proof. split; [reflexivity | discriminate]. Qed.

(** C2, as stated, fails: for the device [~message@1.0], the path [greeting]
    and the parameters [{greeting: "Hello"}] the path comes after the [?]. *)
Lemma buildPath_path_after_query :
  HyperBEAMUtils.buildPath "~message@1.0" "greeting" [("greeting", VStr "Hello")]
  = Ok "/~message@1.0?greeting=Hello/greeting"
  /\ path_precedes_query "/~message@1.0?greeting=Hello/greeting" "greeting" = false.
Proof. split; reflexivity. Qed.

(** C2, amended: [buildPath] returns [/], the device, then [?] and the
    parameters, encoded and joined by [&] in the order of the entries, and
    only then [/] and the path; the encoded parameters contain neither [/]
    nor [?], so the path starts at the first [/] after the [?]. *)
Theorem buildPath_shape (device path : string) (params : list (string * jsval))
    (q : string) :
  path <> "" ->
  params <> [] ->
  HyperBEAMUtils.createTypedQuery params = Ok q ->
  HyperBEAMUtils.buildPath device path params
  = Ok ("/" +:+ device +:+ "?" +:+ q +:+ "/" +:+ path)
  /\ (exists pairs,
        Forall2 (fun kv nv => HyperBEAMUtils.typed_pair (fst kv) (snd kv) = Ok nv)
          params pairs
        /\ q = Str.join "&" (List.map URLSearchParams.serialize_pair pairs))
  /\ Str.all (fun c => negb (Ascii.eqb c "/") && negb (Ascii.eqb c "?")) q = true.
Proof.
  intros Hpath Hparams Hq. split; [| split].
  - unfold HyperBEAMUtils.buildPath. rewrite Hq.
    destruct params as [|kv rest]; [congruence |].
    destruct (String.eqb_spec path ""); [congruence |].
    change (0 <? Z.of_nat (List.length (kv :: rest))) with true.
    cbv iota. reflexivity.
  - apply createTypedQuery_spec in Hq as (pairs & HF & ->). now exists pairs.
  - apply createTypedQuery_spec in Hq as (pairs & _ & ->).
    apply all_weaken with (p := query_char); [| apply toString_query_char].
    intros c. destruct c as [[] [] [] [] [] [] [] []]; cbv; congruence.
Qed.

(** The address of the tutorial's greeting message. *)
Lemma buildPath_shape_witness :
  HyperBEAMUtils.buildPath "~message@1.0" "greeting"
    [("greeting", VStr "Hello"); ("count", VNum 42)]
  = Ok ("/" +:+ "~message@1.0" +:+ "?" +:+ "greeting=Hello&count%2Binteger=42"
        +:+ "/" +:+ "greeting").
Proof.
  apply (buildPath_shape "~message@1.0" "greeting"
           [("greeting", VStr "Hello"); ("count", VNum 42)]
           "greeting=Hello&count%2Binteger=42").
  - discriminate.
  - discriminate.
  - reflexivity.
Defined.


Lemma join_cons2 (sep a b : string) (l : list string) :
  Str.join sep (a :: b :: l) = a +:+ sep +:+ Str.join sep (b :: l).
Proof. reflexivity. Qed.

Lemma join_cons_app (sep x y : string) (l1 l2 : list string) :
  Str.join sep (x :: l1 ++ y :: l2) = x +:+ sep +:+ Str.join sep (l1 ++ y :: l2).
Proof. destruct l1; reflexivity. Qed.


Lemma map_result_cons_ok {A B} (f : A -> result B) (x : A) (y : B) (l : list A) :
  f x = Ok y ->
  map_result f (x :: l)
  = match map_result f l with
    | Ok ys => Ok (y :: ys)
    | Throw e => Throw e
    end.
Proof. intros H. simpl. now rewrite H. Qed.




(** The loop depends on an entry only through the pair it appends. *)
Lemma append_entries_congr (key : string) (v v' : jsval)
    (p1 p2 : list (string * jsval)) :
  HyperBEAMUtils.typed_pair key v = HyperBEAMUtils.typed_pair key v' ->
  forall acc,
    HyperBEAMUtils.append_entries (p1 ++ (key, v) :: p2) acc
    = HyperBEAMUtils.append_entries (p1 ++ (key, v') :: p2) acc.
Proof.
  intros Hpair. induction p1 as [|[k0 v0] p1 IH]; intros acc; simpl.
  - now rewrite Hpair.
  - destruct (HyperBEAMUtils.typed_pair k0 v0) as [[name s]|e]; [apply IH | reflexivity].
Qed.





(** C4, as stated, fails: [buildPath] accepts the empty path, a path with
    an empty segment and a path that contains [/]; none raises an error. *)
Lemma buildPath_accepts_any_path :
  HyperBEAMUtils.buildPath "~meta@1.0" "" [] = Ok "/~meta@1.0"
  /\ HyperBEAMUtils.buildPath "~meta@1.0" "a//b" [] = Ok "/~meta@1.0/a//b"
  /\ HyperBEAMUtils.buildPath "~process@1.0" "compute/cache" []
     = Ok "/~process@1.0/compute/cache".
Proof. repeat split; reflexivity. Qed.

(** C4, amended: [buildPath] validates no segment. Whenever the parameters
    encode, it returns an address, for every path: the empty path is left
    out, and a non-empty path, with or without [/], is the end of the
    address, verbatim, after a [/]. The function is pure: its type has no
    effect. *)
Theorem buildPath_any_path (device path : string) (params : list (string * jsval))
    (q : string) :
  HyperBEAMUtils.createTypedQuery params = Ok q ->
  exists root,
    HyperBEAMUtils.buildPath device "" params = Ok root
    /\ HyperBEAMUtils.buildPath device path params
       = Ok (if String.eqb path "" then root else root +:+ "/" +:+ path).
Proof.
  intros Hq. unfold HyperBEAMUtils.buildPath. rewrite Hq.
  destruct (0 <? Z.of_nat (List.length params)).
  - exists ("/" +:+ device +:+ "?" +:+ q). split.
    + simpl. now rewrite !string_app_nil_r.
    + destruct (String.eqb path "").
      * now rewrite !string_app_nil_r.
      * now rewrite !string_app_assoc.
  - exists ("/" +:+ device). split.
    + simpl. now rewrite !string_app_nil_r.
    + destruct (String.eqb path "").
      * now rewrite !string_app_nil_r.
      * now rewrite !string_app_assoc.
Qed.

(** A path of two segments under the process device. *)
Lemma buildPath_any_path_witness :
  exists root,
    HyperBEAMUtils.buildPath "~process@1.0" "" [("n", VNum 1)] = Ok root
    /\ HyperBEAMUtils.buildPath "~process@1.0" "compute/cache" [("n", VNum 1)]
       = Ok (if String.eqb "compute/cache" "" then root
             else root +:+ "/" +:+ "compute/cache").
Proof.
  apply (buildPath_any_path "~process@1.0" "compute/cache" [("n", VNum 1)]
           "n%2Binteger=1").
  reflexivity.
Defined.

(** ** The request mediator *)

Lemma emits_app (a b : list event) (w : world) :
  emits (a ++ b) w = emits b (emits a w).
Proof. apply fold_left_app. Qed.

Lemma emits_frame (evs : list event) (w : world) :
  net (emits evs w) = net w
  /\ fetched (emits evs w) = fetched w
  /\ timers (emits evs w) = timers w
  /\ next_timer (emits evs w) = next_timer w
  /\ clock (emits evs w) = clock w
  /\ trace (emits evs w) = trace w ++ evs.
Proof.
  revert w. induction evs as [|e evs IH]; intros w; simpl.
  - now rewrite app_nil_r.
  - destruct (IH (emit e w)) as (-> & -> & -> & -> & -> & ->). simpl.
    now rewrite <- app_assoc.
Qed.

Lemma timeout_accepted (c : HyperBEAMClient.t) :
  valid_timeout c -> AbortSignal_timeout (HyperBEAMClient.timeout c) = Ok tt.
Proof.
  intros [H1 H2]. unfold AbortSignal_timeout.
  apply Z.leb_le in H1, H2. now rewrite H1, H2.
Qed.

Lemma timeout_refused (c : HyperBEAMClient.t) :
  ~ valid_timeout c ->
  AbortSignal_timeout (HyperBEAMClient.timeout c) = Throw TimeoutOutOfRange.
Proof.
  intros H. unfold AbortSignal_timeout, valid_timeout in *.
  destruct (0 <=? HyperBEAMClient.timeout c) eqn:E1;
    destruct (HyperBEAMClient.timeout c <=? 4294967295) eqn:E2; try reflexivity.
  apply Z.leb_le in E1, E2. now destruct H.
Qed.

Lemma timeout_cases (c : HyperBEAMClient.t) :
  AbortSignal_timeout (HyperBEAMClient.timeout c) = Ok tt
  \/ AbortSignal_timeout (HyperBEAMClient.timeout c) = Throw TimeoutOutOfRange.
Proof.
  unfold AbortSignal_timeout.
  destruct ((0 <=? HyperBEAMClient.timeout c)
            && (HyperBEAMClient.timeout c <=? 4294967295)); [now left | now right].
Qed.

Lemma read_response_run (p : pending) (r : response) (w : world) :
  HyperBEAMClient.read_response p r w
  = (settle_result (Responds r), emits (settle_events (fst p) (Responds r)) w).
Proof.
  unfold HyperBEAMClient.read_response, settle_result, settle_events, declares_json.
  destruct (negb (response_ok r)); [reflexivity |].
  destruct (content_type r) as [contentType|].
  - destruct (negb (String.eqb contentType "") && Str.includes contentType "application/json").
    + unfold response_json, log, lift, mbind, M_bind. simpl.
      destruct (json_body r); reflexivity.
    + unfold response_text, log, lift, mbind, M_bind, mret, M_ret. simpl.
      destruct (text_body r); reflexivity.
  - unfold response_text, log, lift, mbind, M_bind, mret, M_ret. simpl.
    destruct (text_body r); reflexivity.
Qed.

Lemma settled_run (p : pending) (label : string) (options : request_options)
    (w : world) :
  let o := net w (fst p) (snd p) in
  try_catch
    (response ← fetch_settle p; HyperBEAMClient.read_response p response)
    (HyperBEAMClient.rethrow label options) w
  = (settle_result o,
     emits (settle_events (fst p) o ++ debug_events label options (settle_result o)) w).
Proof.
  intros o. unfold try_catch, mbind, M_bind, fetch_settle, HyperBEAMClient.rethrow.
  fold o. destruct o as [r|e] eqn:Eo.
  - rewrite read_response_run, emits_app.
    destruct (settle_result (Responds r)) as [v|e]; [reflexivity |].
    unfold debug_events. destruct (opt_debug options); reflexivity.
  - simpl. destruct (opt_debug options); reflexivity.
Qed.

Lemma debug_events_off (label : string) (r : result jsval) :
  debug_events label no_options r = [].
Proof. now destruct r. Qed.

(** A call of [get] that has issued its request. *)
Lemma get_end_issued (c : HyperBEAMClient.t) (path : string)
    (options : request_options) (p : pending) (w : world) :
  let o := net w (fst p) (snd p) in
  HyperBEAMClient.get_end c path options (HyperBEAMClient.Issued p) w
  = (settle_result o,
     emits (settle_events (fst p) o
            ++ debug_events ("GET " +:+ HyperBEAMClient.nodeUrl c +:+ path +:+ " failed:")
                 options (settle_result o)) w).
Proof. apply settled_run. Qed.

(** A call of [get] without the [debug] option, from its [await] on. *)
Lemma get_end_quiet (c : HyperBEAMClient.t) (path : string)
    (s : HyperBEAMClient.started) (w : world) :
  HyperBEAMClient.get_end c path no_options s w
  = (started_result (net w) s, emits (started_events (net w) s) w).
Proof.
  destruct s as [p|e]; [| reflexivity].
  rewrite get_end_issued. cbv zeta. now rewrite debug_events_off, app_nil_r.
Qed.

(** [get] is its part up to the [await] and then its part from there on. *)
Lemma get_split (c : HyperBEAMClient.t) (path : string)
    (options : request_options) (w : world) :
  HyperBEAMClient.get c path options w
  = (s ← HyperBEAMClient.get_begin c path options;
     HyperBEAMClient.get_end c path options s) w.
Proof.
  unfold HyperBEAMClient.get, HyperBEAMClient.get_begin, HyperBEAMClient.get_end.
  destruct (AbortSignal_timeout (HyperBEAMClient.timeout c)) as [[]|e].
  - reflexivity.
  - unfold try_catch, HyperBEAMClient.rethrow, mbind, M_bind, lift, throw, log,
      mret, M_ret.
    destruct (opt_debug options); reflexivity.
Qed.

Lemma get_begin_run (c : HyperBEAMClient.t) (path : string)
    (options : request_options) (w : world) :
  valid_timeout c ->
  let rq := HyperBEAMClient.get_request c path options in
  HyperBEAMClient.get_begin c path options w
  = (Ok (HyperBEAMClient.Issued (fetched w, rq)), issued rq w).
Proof.
  intros Hc rq. unfold HyperBEAMClient.get_begin.
  now rewrite (timeout_accepted c Hc).
Qed.

Lemma get_run (c : HyperBEAMClient.t) (path : string)
    (options : request_options) (w : world) :
  valid_timeout c ->
  let rq := HyperBEAMClient.get_request c path options in
  let o := net w (fetched w) rq in
  HyperBEAMClient.get c path options w
  = (settle_result o,
     emits (settle_events (fetched w) o
            ++ debug_events ("GET " +:+ HyperBEAMClient.nodeUrl c +:+ path +:+ " failed:")
                 options (settle_result o)) (issued rq w)).
Proof.
  intros Hc rq o. rewrite get_split.
  unfold mbind at 1. unfold M_bind. rewrite (get_begin_run c path options w Hc).
  cbv zeta. fold rq. rewrite get_end_issued. reflexivity.
Qed.

(** A client whose timeout [AbortSignal.timeout] refuses: [get] throws
    before it calls [fetch]. *)
Lemma get_refused (c : HyperBEAMClient.t) (path : string)
    (options : request_options) (w : world) :
  ~ valid_timeout c ->
  HyperBEAMClient.get c path options w
  = (Throw TimeoutOutOfRange,
     emits (debug_events ("GET " +:+ HyperBEAMClient.nodeUrl c +:+ path +:+ " failed:")
              options (Throw TimeoutOutOfRange)) w).
Proof.
  intros Hc. unfold HyperBEAMClient.get, try_catch, mbind, M_bind, lift,
    HyperBEAMClient.rethrow.
  rewrite (timeout_refused c Hc). unfold debug_events.
  destruct (opt_debug options); reflexivity.
Qed.

Lemma post_run (c : HyperBEAMClient.t) (path : string) (data : jsval)
    (options : request_options) (w : world) :
  valid_timeout c ->
  let data' := match data with VUndef => VObj [] | _ => data end in
  let rq := HyperBEAMClient.post_request c path data' options in
  let o := net w (fetched w) rq in
  HyperBEAMClient.post c path data options w
  = (settle_result o,
     emits (settle_events (fetched w) o
            ++ debug_events ("POST " +:+ HyperBEAMClient.nodeUrl c +:+ path +:+ " failed:")
                 options (settle_result o)) (issued rq w)).
Proof.
  intros Hc data' rq o. unfold HyperBEAMClient.post. fold data'. fold rq.
  pose proof (settled_run (fetched w, rq)
                ("POST " +:+ HyperBEAMClient.nodeUrl c +:+ path +:+ " failed:")
                options (issued rq w)) as H.
  cbv zeta in H. simpl fst in H. simpl snd in H.
  change (net (issued rq w)) with (net w) in H. fold o in H.
  rewrite <- H. unfold try_catch, mbind at 1, M_bind at 1, lift.
  rewrite (timeout_accepted c Hc). reflexivity.
Qed.

Lemma post_refused (c : HyperBEAMClient.t) (path : string) (data : jsval)
    (options : request_options) (w : world) :
  ~ valid_timeout c ->
  HyperBEAMClient.post c path data options w
  = (Throw TimeoutOutOfRange,
     emits (debug_events ("POST " +:+ HyperBEAMClient.nodeUrl c +:+ path +:+ " failed:")
              options (Throw TimeoutOutOfRange)) w).
Proof.
  intros Hc. unfold HyperBEAMClient.post, try_catch, mbind, M_bind, lift,
    HyperBEAMClient.rethrow.
  rewrite (timeout_refused c Hc). unfold debug_events.
  destruct (opt_debug options); reflexivity.
Qed.

Lemma non_success_not_ok (r : response) :
  status r < 200 \/ 299 < status r -> response_ok r = false.
Proof.
  intros H. unfold response_ok. apply andb_false_iff.
  destruct H; [left; apply Z.leb_gt | right; apply Z.leb_gt]; lia.
Qed.

(** C9: when the response to the request has a status outside 200..299,
    [get] and [post] throw the error whose message carries the status and
    the status text, [HTTP <status>: <statusText>], and the body of the
    response is never read: the only events are the request itself and,
    with the [debug] option, the report of the [catch] block. The timeout of
    the client is one that [AbortSignal.timeout] accepts, so that the
    request is made. *)
Theorem non_success_status_fails (c : HyperBEAMClient.t) (path : string)
    (data : jsval) (options : request_options) (w : world) (r : response) :
  valid_timeout c ->
  status r < 200 \/ 299 < status r ->
  (forall rq, net w (fetched w) rq = Responds r) ->
  (exists w',
     HyperBEAMClient.get c path options w = (Throw (RequestFailed r), w')
     /\ List.filter is_body_read (trace w') = List.filter is_body_read (trace w)
     /\ List.filter is_fetch (trace w')
        = List.filter is_fetch (trace w)
          ++ [EFetch (fetched w) (HyperBEAMClient.get_request c path options)])
  /\ (exists w',
        HyperBEAMClient.post c path data options w = (Throw (RequestFailed r), w')
        /\ List.filter is_body_read (trace w') = List.filter is_body_read (trace w)
        /\ List.filter is_fetch (trace w')
           = List.filter is_fetch (trace w)
             ++ [EFetch (fetched w)
                   (HyperBEAMClient.post_request c path
                      (match data with VUndef => VObj [] | _ => data end) options)]).
Proof.
  intros Hc Hstatus Hnet. apply non_success_not_ok in Hstatus.
  assert (settle_result (Responds r) = Throw (RequestFailed r)) as Hres
    by (unfold settle_result; now rewrite Hstatus).
  assert (settle_events (fetched w) (Responds r) = []) as Hev
    by (unfold settle_events; now rewrite Hstatus).
  split.
  - rewrite get_run by exact Hc. cbv zeta. rewrite Hnet, Hres, Hev.
    eexists. split; [reflexivity |].
    match goal with |- context [emits ?evs ?w0] =>
      destruct (emits_frame evs w0) as (_ & _ & _ & _ & _ & ->) end.
    simpl trace. rewrite !List.filter_app. simpl.
    destruct (opt_debug options); simpl; rewrite ?app_nil_r; split; reflexivity.
  - rewrite post_run by exact Hc. cbv zeta. rewrite Hnet, Hres, Hev.
    eexists. split; [reflexivity |].
    match goal with |- context [emits ?evs ?w0] =>
      destruct (emits_frame evs w0) as (_ & _ & _ & _ & _ & ->) end.
    simpl trace. rewrite !List.filter_app. simpl.
    destruct (opt_debug options); simpl; rewrite ?app_nil_r; split; reflexivity.
Qed.

(** A node that answers 404 to the request for its information. *)
Lemma non_success_status_fails_witness :
  exists w',
    HyperBEAMClient.get (HyperBEAMClient.new None None None) "/~meta@1.0/info"
      no_options (answering not_found)
    = (Throw (Error "HTTP 404: Not Found"), w')
    /\ List.filter is_body_read (trace w') = [].
Proof.
  destruct (non_success_status_fails (HyperBEAMClient.new None None None)
              "/~meta@1.0/info" VUndef no_options (answering not_found) not_found)
    as [(w' & Hget & Hreads & _) _].
  - unfold valid_timeout. simpl. lia.
  - right. simpl. lia.
  - intros rq. reflexivity.
  - exists w'. split; [exact Hget | exact Hreads].
Defined.

(** ** The body of a POST request *)

Lemma string_length_app (a b : string) :
  String.length (a +:+ b) = (String.length a + String.length b)%nat.
Proof.
  induction a as [|x a IH]; [reflexivity |].
  rewrite string_app_cons. simpl. now rewrite IH.
Qed.

Lemma escape_char_length (c : ascii) : (1 <= String.length (JSON.escape_char c))%nat.
Proof. destruct c as [[] [] [] [] [] [] [] []]; vm_compute; lia. Qed.

Lemma escape_length (s : string) :
  (String.length s <= String.length (JSON.escape s))%nat.
Proof.
  induction s as [|c s IH]; simpl; [lia |].
  rewrite string_length_app. pose proof (escape_char_length c). lia.
Qed.

Lemma quote_differs (s : string) : JSON.quote s <> s.
Proof.
  intros H. apply (f_equal String.length) in H. unfold JSON.quote in H.
  simpl in H. rewrite string_length_app in H. simpl in H.
  pose proof (escape_length s). lia.
Qed.

(** The events that follow the request of [get] and [post] are no
    requests. *)
Lemma settled_no_fetch (ticket : nat) (o : fetch_outcome) (label : string)
    (options : request_options) :
  List.filter is_fetch
    (settle_events ticket o ++ debug_events label options (settle_result o)) = [].
Proof.
  rewrite List.filter_app. destruct o as [r|e]; simpl.
  - destruct (negb (response_ok r)); simpl.
    + destruct (opt_debug options); reflexivity.
    + destruct (declares_json r); simpl.
      * destruct (json_body r); simpl; [reflexivity |].
        destruct (opt_debug options); reflexivity.
      * destruct (text_body r); simpl; [reflexivity |].
        destruct (opt_debug options); reflexivity.
  - destruct (opt_debug options); reflexivity.
Qed.

(** C10: the body of the request that [post] issues is the payload itself
    when the payload is a string, and never its JSON encoding, which
    differs from it; for every other payload it is [JSON.stringify] of the
    payload ([{}] when the payload is left out). [sendMessage] posts its
    payload the same way to [<basePath>/schedule], with the [Action]
    header unless [headers] overrides it. The request is made when the
    timeout of the client is one that [AbortSignal.timeout] accepts. *)
Theorem post_body_string_verbatim (c : HyperBEAMClient.t) (pc : ProcessClient.t)
    (path action : string) (data : jsval) (options : request_options)
    (headers : gmap string string) (w : world) :
  let data' := match data with VUndef => VObj [] | _ => data end in
  HyperBEAMClient.post_body data'
  = match data' with
    | VStr s => Some s
    | _ => JSON.stringify data'
    end
  /\ (forall s, HyperBEAMClient.post_body (VStr s) = Some s
                /\ JSON.stringify (VStr s) <> Some s)
  /\ (valid_timeout c ->
      exists rq evs,
        trace (snd (HyperBEAMClient.post c path data options w))
        = trace w ++ EFetch (fetched w) rq :: evs
        /\ List.filter is_fetch evs = []
        /\ req_method rq = "POST"
        /\ req_body rq = HyperBEAMClient.post_body data')
  /\ (valid_timeout (ProcessClient.client pc) ->
      exists rq evs,
        trace (snd (ProcessClient.sendMessage pc action data headers w))
        = trace w ++ EFetch (fetched w) rq :: evs
        /\ List.filter is_fetch evs = []
        /\ req_url rq
           = HyperBEAMClient.nodeUrl (ProcessClient.client pc)
             +:+ ProcessClient.basePath pc +:+ "/schedule"
        /\ req_headers rq !! "Action" = Some (default action (headers !! "Action"))
        /\ req_body rq = HyperBEAMClient.post_body data').
Proof.
  intros data'. split; [| split; [| split]].
  - destruct data'; reflexivity.
  - intros s. split; [reflexivity |].
    simpl. intros [= H]. now apply quote_differs in H.
  - intros Hc. rewrite post_run by exact Hc. cbv zeta. fold data'. simpl snd.
    match goal with |- context [emits ?evs ?w0] =>
      exists (HyperBEAMClient.post_request c path data' options), evs;
      destruct (emits_frame evs w0) as (_ & _ & _ & _ & _ & ->) end.
    simpl trace. rewrite <- app_assoc. split; [reflexivity |].
    split; [apply settled_no_fetch | split; reflexivity].
  - intros Hc. unfold ProcessClient.sendMessage. fold data'.
    rewrite post_run by exact Hc. cbv zeta.
    assert (match data' with VUndef => VObj [] | _ => data' end = data') as ->
      by (subst data'; destruct data; reflexivity).
    simpl snd.
    match goal with |- context [emits ?evs (issued ?rq0 ?w0)] =>
      exists rq0, evs;
      destruct (emits_frame evs (issued rq0 w0)) as (_ & _ & _ & _ & _ & ->) end.
    simpl trace. rewrite <- app_assoc. split; [reflexivity |].
    split; [apply settled_no_fetch | split; [reflexivity | split; [| reflexivity]]].
    simpl. apply lookup_union_Some_l, lookup_union_Some_l.
    destruct (headers !! "Action") as [a|] eqn:E; simpl.
    + now apply lookup_union_Some_l.
    + rewrite lookup_union_r by exact E. apply lookup_singleton_eq.
Qed.

(** A text posted to a node with the default timeout leaves as it is. *)
Lemma post_body_string_verbatim_witness :
  exists rq evs,
    trace (snd (HyperBEAMClient.post (HyperBEAMClient.new None None None)
                  "/~meta@1.0/info" (VStr "ping") no_options (answering not_found)))
    = trace (answering not_found) ++ EFetch 0 rq :: evs
    /\ List.filter is_fetch evs = []
    /\ req_method rq = "POST"
    /\ req_body rq = Some "ping".
Proof.
  destruct (post_body_string_verbatim (HyperBEAMClient.new None None None)
              (ProcessClient.new (HyperBEAMClient.new None None None) "p")
              "/~meta@1.0/info" "Ping" (VStr "ping") no_options ∅
              (answering not_found))
    as (_ & _ & Hpost & _).
  apply Hpost. unfold valid_timeout. simpl. lia.
Defined.

(** ** [waitForStateChange] *)

Lemma getCurrentState_run (pc : ProcessClient.t) (w : world) :
  valid_timeout (ProcessClient.client pc) ->
  let rq := HyperBEAMClient.get_request (ProcessClient.client pc)
              (ProcessClient.state_path pc) no_options in
  let o := net w (fetched w) rq in
  ProcessClient.getCurrentState pc w
  = (settle_result o, emits (settle_events (fetched w) o) (issued rq w)).
Proof.
  intros Hc rq o. unfold ProcessClient.getCurrentState.
  rewrite get_run by exact Hc. cbv zeta.
  fold rq. fold o. now rewrite debug_events_off, app_nil_r.
Qed.

Lemma settle_events_no_fetch (n : nat) (o : fetch_outcome) :
  List.filter is_fetch (settle_events n o) = [].
Proof.
  destruct o as [r|e]; simpl; [| reflexivity].
  destruct (negb (response_ok r)); [reflexivity |].
  destruct (declares_json r); reflexivity.
Qed.

Section NeverSatisfied.

Variable pc : ProcessClient.t.
Variable checkFunction : jsval -> result bool.
Variable maxAttempts : nat.
Variable interval : Z.
Hypothesis valid : valid_timeout (ProcessClient.client pc).
Hypothesis never : forall state, checkFunction state = Ok false.

Let rq : request :=
  HyperBEAMClient.get_request (ProcessClient.client pc)
    (ProcessClient.state_path pc) no_options.

Lemma attempt_never (i : nat) (w : world) :
  exists evs,
    ProcessClient.attempt pc checkFunction maxAttempts interval i w
    = (attempt_result maxAttempts i (settle_result (net w (fetched w) rq)),
       emits evs (issued rq w))
    /\ List.filter is_fetch evs = [].
Proof.
  unfold ProcessClient.attempt, try_catch. unfold mbind at 1. unfold M_bind.
  rewrite getCurrentState_run by exact valid. cbv zeta. fold rq.
  set (o := net w (fetched w) rq).
  destruct (settle_result o) as [state|e] eqn:E.
  - exists (settle_events (fetched w) o ++ [ESleep interval]).
    unfold mbind at 1. unfold M_bind, lift. rewrite never.
    rewrite emits_app. split; [reflexivity |].
    now rewrite List.filter_app, settle_events_no_fetch.
  - exists (settle_events (fetched w) o
            ++ [EWarn ("Attempt " +:+ Str.dec (Z.of_nat i + 1) +:+ " failed:")
                  (error_message e)]).
    unfold mbind, M_bind, log. rewrite emits_app. simpl attempt_result.
    split.
    + destruct (Z.of_nat i =? Z.of_nat maxAttempts - 1); reflexivity.
    + now rewrite List.filter_app, settle_events_no_fetch.
Qed.

Lemma attempts_from_S (k i : nat) (w : world) :
  ProcessClient.attempts_from pc checkFunction maxAttempts interval (S k) i w
  = match ProcessClient.attempt pc checkFunction maxAttempts interval i w with
    | (Ok r, w') =>
        match r with
        | Some state => mret state
        | None =>
            ProcessClient.attempts_from pc checkFunction maxAttempts interval k (S i)
        end w'
    | (Throw e, w') => (Throw e, w')
    end.
Proof. reflexivity. Qed.

(** With a predicate that is never satisfied, the loop makes one request
    per remaining iteration; it ends with the error of the last request
    when that request fails, and with [PredicateNotMet] otherwise. *)
Lemma attempts_from_never (remaining : nat) :
  forall (i : nat) (w : world),
    (i + remaining = maxAttempts)%nat ->
    exists evs w',
      ProcessClient.attempts_from pc checkFunction maxAttempts interval remaining i w
      = (match remaining with
         | O => Throw (ProcessClient.PredicateNotMet maxAttempts)
         | S k =>
             match settle_result (net w (fetched w + k)%nat rq) with
             | Throw e => Throw e
             | Ok _ => Throw (ProcessClient.PredicateNotMet maxAttempts)
             end
         end, w')
      /\ net w' = net w
      /\ fetched w' = (fetched w + remaining)%nat
      /\ trace w' = trace w ++ evs
      /\ List.filter is_fetch evs = requests_from rq w remaining.
Proof.
  induction remaining as [|k IH]; intros i w Hi.
  - exists [], w. simpl. rewrite app_nil_r, Nat.add_0_r. repeat split; reflexivity.
  - destruct (attempt_never i w) as (evs1 & Hrun & Hnf).
    set (w1 := emits evs1 (issued rq w)) in *.
    destruct (emits_frame evs1 (issued rq w)) as (Hnet & Hfet & _ & _ & _ & Htr).
    fold w1 in Hnet, Hfet, Htr. simpl in Hnet, Hfet, Htr.
    assert (S i + k = maxAttempts)%nat as Hi' by lia.
    destruct (IH (S i) w1 Hi')
      as (evs2 & w2 & Hrest & Hnet2 & Hfet2 & Htr2 & Hreq2).
    assert (List.filter is_fetch ((EFetch (fetched w) rq :: evs1) ++ evs2)
            = requests_from rq w (S k)) as Hreq.
    { rewrite List.filter_app, Hreq2. simpl List.filter. rewrite Hnf.
      unfold requests_from. simpl. rewrite Nat.add_0_r. f_equal.
      rewrite <- seq_shift, List.map_map. apply List.map_ext.
      intros j. rewrite Hfet. f_equal. lia. }
    assert (trace w2 = trace w ++ (EFetch (fetched w) rq :: evs1) ++ evs2) as Htr'
      by (rewrite Htr2, Htr; now rewrite <- !app_assoc).
    rewrite attempts_from_S.
    rewrite Hrun. cbv iota beta.
    destruct k as [|k'].
    + (* the last iteration *)
      replace (fetched w + 0)%nat with (fetched w) by lia.
      assert ((Z.of_nat i =? Z.of_nat maxAttempts - 1) = true) as Hlast
        by (apply Z.eqb_eq; lia).
      destruct (settle_result (net w (fetched w) rq)) as [state|e];
        simpl attempt_result; cbv iota beta.
      * rewrite Hrest. exists ((EFetch (fetched w) rq :: evs1) ++ evs2), w2.
        split; [reflexivity |].
        rewrite Hnet2, Hfet2, Hnet, Hfet.
        repeat split; try reflexivity; try lia; assumption.
      * rewrite Hlast. exists (EFetch (fetched w) rq :: evs1), w1.
        split; [reflexivity |].
        rewrite Hnet, Hfet, Htr.
        repeat split; try reflexivity; try lia.
        -- now rewrite <- !app_assoc.
        -- simpl. rewrite Hnf. unfold requests_from. simpl.
           now rewrite Nat.add_0_r.
    + (* an iteration before the last *)
      assert ((Z.of_nat i =? Z.of_nat maxAttempts - 1) = false) as Hnot
        by (apply Z.eqb_neq; lia).
      assert (attempt_result maxAttempts i (settle_result (net w (fetched w) rq))
              = Ok None) as ->
        by (destruct (settle_result (net w (fetched w) rq)); simpl;
            [reflexivity | now rewrite Hnot]).
      cbv iota beta. rewrite Hrest. exists ((EFetch (fetched w) rq :: evs1) ++ evs2), w2.
      rewrite Hnet2, Hfet2, Hnet, Hfet.
      replace (S (fetched w) + k')%nat with (fetched w + S k')%nat by lia.
      repeat split; try reflexivity; try lia; assumption.
Qed.

End NeverSatisfied.

(** C5: with a predicate that is never satisfied and [maxAttempts = 3],
    [waitForStateChange] makes exactly three requests for the live state,
    whatever the first two answer, and then fails: with the error of the
    third request when that request fails, and otherwise with the error
    [State change not detected after 3 attempts]. The timeout of the client
    is one that [AbortSignal.timeout] accepts: with another one no request
    is made at all. *)
Theorem waitForStateChange_three_attempts (pc : ProcessClient.t)
    (checkFunction : jsval -> result bool) (interval : Z) (w : world) :
  valid_timeout (ProcessClient.client pc) ->
  (forall state, checkFunction state = Ok false) ->
  let rq := HyperBEAMClient.get_request (ProcessClient.client pc)
              (ProcessClient.state_path pc) no_options in
  exists evs w',
    ProcessClient.waitForStateChange pc checkFunction 3 interval w
    = (match settle_result (net w (fetched w + 2)%nat rq) with
       | Throw e => Throw e
       | Ok _ => Throw (Error "State change not detected after 3 attempts")
       end, w')
    /\ fetched w' = (fetched w + 3)%nat
    /\ trace w' = trace w ++ evs
    /\ List.filter is_fetch evs
       = [EFetch (fetched w) rq; EFetch (fetched w + 1)%nat rq;
          EFetch (fetched w + 2)%nat rq].
Proof.
  intros Hvalid Hnever rq.
  destruct (attempts_from_never pc checkFunction 3 interval Hvalid Hnever 3 0 w eq_refl)
    as (evs & w' & Hrun & _ & Hfet & Htr & Hreq).
  exists evs, w'. unfold ProcessClient.waitForStateChange. rewrite Hrun.
  repeat split; try assumption.
  rewrite Hreq. unfold requests_from. simpl. now rewrite Nat.add_0_r.
Qed.

(** Three attempts on the flaky network: one failure, two states that do
    not satisfy the predicate. *)
Lemma waitForStateChange_three_attempts_witness :
  exists evs w',
    ProcessClient.waitForStateChange
      (ProcessClient.new (HyperBEAMClient.new None None None) "proc")
      (fun _ => Ok false) 3 1000 flaky
    = (Throw (Error "State change not detected after 3 attempts"), w')
    /\ fetched w' = 3%nat
    /\ trace w' = evs
    /\ List.length (List.filter is_fetch evs) = 3%nat.
Proof.
  destruct (waitForStateChange_three_attempts
              (ProcessClient.new (HyperBEAMClient.new None None None) "proc")
              (fun _ => Ok false) 1000 flaky)
    as (evs & w' & Hrun & Hfet & Htr & Hreq).
  - unfold valid_timeout. simpl. lia.
  - intros state. reflexivity.
  - exists evs, w'. rewrite Hreq. repeat split; assumption.
Defined.


(** ** The polling engine: delivery *)

Lemma notify_one_run (state : jsval) (callback : ProcessDashboard.subscriber)
    (w : world) :
  ProcessDashboard.notify_one state callback w
  = (Ok tt, emits (delivery state callback) w).
Proof.
  unfold ProcessDashboard.notify_one, try_catch, mbind, M_bind, log, lift, delivery.
  destruct (ProcessDashboard.sub_call callback state) as [[]|e]; reflexivity.
Qed.

Lemma forEach_notify_run (state : jsval) (l : list ProcessDashboard.subscriber) :
  forall w,
    ProcessDashboard.forEach l (ProcessDashboard.notify_one state) w
    = (Ok tt, emits (List.flat_map (delivery state) l) w).
Proof.
  induction l as [|callback rest IH]; intros w; [reflexivity |].
  simpl ProcessDashboard.forEach. unfold mbind, M_bind.
  rewrite notify_one_run, IH.
  change (List.flat_map (delivery state) (callback :: rest))
    with (delivery state callback ++ List.flat_map (delivery state) rest).
  now rewrite emits_app.
Qed.

Lemma invocations_of_deliveries (state : jsval) (l : list ProcessDashboard.subscriber) :
  List.filter is_invoke (List.flat_map (delivery state) l)
  = List.map (fun callback => EInvoke (ProcessDashboard.sub_id callback) state) l.
Proof.
  induction l as [|callback rest IH]; [reflexivity |].
  change (List.flat_map (delivery state) (callback :: rest))
    with (delivery state callback ++ List.flat_map (delivery state) rest).
  rewrite List.filter_app, IH. unfold delivery.
  destruct (ProcessDashboard.sub_call callback state); reflexivity.
Qed.

Lemma settle_events_no_invoke (n : nat) (o : fetch_outcome) :
  List.filter is_invoke (settle_events n o) = [].
Proof.
  destruct o as [r|e]; simpl; [| reflexivity].
  destruct (negb (response_ok r)); [reflexivity |].
  destruct (declares_json r); reflexivity.
Qed.

(** A call of [get] without the [debug] option, up to its [await]. *)
Lemma get_begin_quiet (c : HyperBEAMClient.t) (path : string) (w : world) :
  HyperBEAMClient.get_begin c path no_options w
  = match AbortSignal_timeout (HyperBEAMClient.timeout c) with
    | Ok _ =>
        (Ok (HyperBEAMClient.Issued
               (fetched w, HyperBEAMClient.get_request c path no_options)),
         issued (HyperBEAMClient.get_request c path no_options) w)
    | Throw e => (Ok (HyperBEAMClient.Refused e), w)
    end.
Proof.
  unfold HyperBEAMClient.get_begin.
  destruct (AbortSignal_timeout (HyperBEAMClient.timeout c)); reflexivity.
Qed.

Lemma tick_begin_frame (d : ProcessDashboard.t) (w : world) :
  exists s w',
    ProcessDashboard.tick_begin d w = (Ok s, w')
    /\ net w' = net w
    /\ timers w' = timers w
    /\ next_timer w' = next_timer w.
Proof.
  unfold ProcessDashboard.tick_begin. rewrite get_begin_quiet.
  destruct (AbortSignal_timeout _); eexists _, _; repeat split; reflexivity.
Qed.

Lemma tick_end_run (d : ProcessDashboard.t) (s : HyperBEAMClient.started)
    (w : world) :
  ProcessDashboard.tick_end d s w
  = (Ok tt, emits (arrival_events (net w) (ProcessDashboard.subscribers d) s) w).
Proof.
  unfold ProcessDashboard.tick_end, try_catch. unfold mbind at 1. unfold M_bind.
  rewrite get_end_quiet. unfold arrival_events.
  destruct (started_result (net w) s) as [state|e].
  - unfold ProcessDashboard.notifySubscribers.
    destruct (emits_frame (started_events (net w) s) w) as (Hnet & _).
    now rewrite forEach_notify_run, emits_app.
  - now rewrite emits_app.
Qed.

(** A tick returns normally and leaves the timers as they are, whatever the
    timeout of the client and the answer of the network. *)
Lemma tick_frame (d : ProcessDashboard.t) (w : world) :
  exists w',
    ProcessDashboard.tick d w = (Ok tt, w')
    /\ net w' = net w
    /\ timers w' = timers w
    /\ next_timer w' = next_timer w.
Proof.
  unfold ProcessDashboard.tick, mbind, M_bind.
  destruct (tick_begin_frame d w) as (s & w1 & -> & Hnet & Htim & Hnext).
  rewrite tick_end_run. eexists. split; [reflexivity |].
  match goal with |- context [emits ?evs ?w0] =>
    destruct (emits_frame evs w0) as (-> & _ & -> & -> & _) end.
  now rewrite Hnet, Htim, Hnext.
Qed.

Lemma tick_run (d : ProcessDashboard.t) (w : world) :
  valid_timeout (ProcessClient.client (ProcessDashboard.process d)) ->
  let rq := HyperBEAMClient.get_request
              (ProcessClient.client (ProcessDashboard.process d))
              (ProcessClient.state_path (ProcessDashboard.process d)) no_options in
  ProcessDashboard.tick d w
  = (Ok tt,
     emits (arrival_events (net w) (ProcessDashboard.subscribers d)
              (HyperBEAMClient.Issued (fetched w, rq)))
       (issued rq w)).
Proof.
  intros Hc rq. unfold ProcessDashboard.tick, mbind, M_bind,
    ProcessDashboard.tick_begin.
  rewrite get_begin_run by exact Hc. cbv zeta. fold rq.
  now rewrite tick_end_run.
Qed.

(** C8: a tick of the polling timer requests the live state (the timeout of
    the client is one that [AbortSignal.timeout] accepts) and waits. When
    the answer arrives, whatever has happened in between, the rest of the
    tick returns normally and leaves the timers as they are. When the
    request has succeeded with [state], every callback registered at that
    time is invoked with [state], in the order of registration, whether or
    not some of them throw, and what a callback throws is reported. When
    the request has failed with [e], no callback is invoked and the error is
    reported. [d0] and [w] are the dashboard and the world when the timer
    fires, [d] and [w1] those when the answer arrives. *)
Theorem tick_delivers_to_every_subscriber (d0 d : ProcessDashboard.t)
    (w w1 : world) :
  valid_timeout (ProcessClient.client (ProcessDashboard.process d0)) ->
  net w1 = net w ->
  let rq := HyperBEAMClient.get_request
              (ProcessClient.client (ProcessDashboard.process d0))
              (ProcessClient.state_path (ProcessDashboard.process d0)) no_options in
  let o := net w (fetched w) rq in
  ProcessDashboard.tick_begin d0 w
  = (Ok (HyperBEAMClient.Issued (fetched w, rq)), issued rq w)
  /\ exists evs w',
       ProcessDashboard.tick_end d (HyperBEAMClient.Issued (fetched w, rq)) w1
       = (Ok tt, w')
       /\ timers w' = timers w1
       /\ trace w' = trace w1 ++ evs
       /\ match settle_result o with
          | Ok state =>
              evs = settle_events (fetched w) o
                    ++ List.flat_map (delivery state) (ProcessDashboard.subscribers d)
              /\ List.filter is_invoke evs
                 = List.map
                     (fun callback => EInvoke (ProcessDashboard.sub_id callback) state)
                     (ProcessDashboard.subscribers d)
          | Throw e =>
              evs = settle_events (fetched w) o ++ [EError "Polling error:" e]
              /\ List.filter is_invoke evs = []
          end.
Proof.
  intros Hc Hnet rq o. split.
  - unfold ProcessDashboard.tick_begin. now rewrite get_begin_run by exact Hc.
  - rewrite tick_end_run, Hnet.
    exists (arrival_events (net w) (ProcessDashboard.subscribers d)
              (HyperBEAMClient.Issued (fetched w, rq))).
    eexists. split; [reflexivity |].
    match goal with |- context [emits ?evs ?w0] =>
      destruct (emits_frame evs w0) as (_ & _ & -> & _ & _ & ->) end.
    split; [reflexivity |]. split; [reflexivity |].
    unfold arrival_events, started_result, started_events. simpl fst. simpl snd.
    fold o. destruct (settle_result o) as [state|e].
    + split; [reflexivity |].
      now rewrite List.filter_app, settle_events_no_invoke, invocations_of_deliveries.
    + split; [reflexivity |].
      now rewrite List.filter_app, settle_events_no_invoke.
Qed.

(** A callback that throws is registered before one that does not; the
    second is registered while the request is in flight. Both are invoked
    with the state. *)
Lemma tick_delivers_to_every_subscriber_witness :
  exists evs w',
    ProcessDashboard.tick_end
      (ProcessDashboard.subscribe (ProcessDashboard.subscribe observed faulty) steady)
      (HyperBEAMClient.Issued
         (0%nat,
          HyperBEAMClient.get_request (HyperBEAMClient.new None None None)
            "/proc~process@1.0/now" no_options))
      (issued (HyperBEAMClient.get_request (HyperBEAMClient.new None None None)
                 "/proc~process@1.0/now" no_options) (answering ready))
    = (Ok tt, w')
    /\ trace w'
       = EFetch 0 (HyperBEAMClient.get_request (HyperBEAMClient.new None None None)
                     "/proc~process@1.0/now" no_options) :: evs
    /\ List.filter is_invoke evs
       = [EInvoke 1 (VStr "ready"); EInvoke 2 (VStr "ready")].
Proof.
  destruct (tick_delivers_to_every_subscriber
              (ProcessDashboard.subscribe observed faulty)
              (ProcessDashboard.subscribe (ProcessDashboard.subscribe observed faulty)
                 steady)
              (answering ready)
              (issued (HyperBEAMClient.get_request (HyperBEAMClient.new None None None)
                         "/proc~process@1.0/now" no_options) (answering ready)))
    as (_ & evs & w' & Hrun & _ & Htr & _ & Hinv).
  - unfold valid_timeout. simpl. lia.
  - reflexivity.
  - exists evs, w'. split; [exact Hrun |]. split; [exact Htr | exact Hinv].
Defined.

(** ** The polling engine: timers *)

Lemma fresh_next_unused (w : world) :
  Engine.handles_fresh w -> timers w !! next_timer w = None.
Proof.
  intros Hfresh. destruct (timers w !! next_timer w) as [ms|] eqn:E; [| reflexivity].
  apply Hfresh in E. simpl in E. lia.
Qed.

Lemma fresh_after_insert (m : gmap positive Z) (next : positive) (ms : Z) :
  map_Forall (fun h _ => (h < next)%positive) m ->
  map_Forall (fun h _ => (h < Pos.succ next)%positive) (<[next := ms]> m).
Proof.
  intros Hfresh. apply map_Forall_insert_2; [lia |].
  apply (map_Forall_impl _ _ _ Hfresh). intros h _ Hh. simpl in *. lia.
Qed.

Lemma inv_start (w0 : world) (d : ProcessDashboard.t) (w : world) (interval : Z) :
  Engine.inv w0 d w ->
  exists d' w',
    ProcessDashboard.startPolling d interval w = (Ok d', w')
    /\ ProcessDashboard.pollingInterval d' = Some (next_timer w)
    /\ ProcessDashboard.subscribers d' = ProcessDashboard.subscribers d
    /\ timers w' = <[next_timer w := interval]> (timers w0)
    /\ Engine.inv w0 d' w'.
Proof.
  intros [Hfresh Hinv]. unfold ProcessDashboard.startPolling.
  destruct (ProcessDashboard.pollingInterval d) as [h|] eqn:Eh.
  - destruct Hinv as [Hh [ms Hm]].
    assert (delete h (timers w) = timers w0) as Hdel
      by (rewrite Hm, delete_insert_eq; now apply delete_id).
    assert (timers w0 !! next_timer w = None) as Hnext.
    { pose proof (fresh_next_unused w Hfresh) as Hn. rewrite Hm in Hn.
      now apply lookup_insert_None in Hn as [Hn _]. }
    eexists _, _. split; [reflexivity |]. simpl. rewrite Hdel.
    repeat split; try reflexivity.
    + unfold Engine.handles_fresh. simpl.
      apply fresh_after_insert. unfold Engine.handles_fresh in Hfresh.
      rewrite Hm in Hfresh.
      intros k x Hk. apply (Hfresh k x). rewrite lookup_insert_ne; [exact Hk |].
      intros ->. congruence.
    + exact Hnext.
    + now exists interval.
  - eexists _, _. split; [reflexivity |]. simpl. rewrite Hinv.
    assert (timers w0 !! next_timer w = None) as Hnext
      by (rewrite <- Hinv; now apply fresh_next_unused).
    repeat split; try reflexivity.
    + unfold Engine.handles_fresh. simpl.
      apply fresh_after_insert. unfold Engine.handles_fresh in Hfresh.
      now rewrite Hinv in Hfresh.
    + exact Hnext.
    + now exists interval.
Qed.

Lemma inv_stop (w0 : world) (d : ProcessDashboard.t) (w : world) :
  Engine.inv w0 d w ->
  exists d' w',
    ProcessDashboard.stopPolling d w = (Ok d', w')
    /\ ProcessDashboard.pollingInterval d' = None
    /\ ProcessDashboard.subscribers d' = ProcessDashboard.subscribers d
    /\ timers w' = timers w0
    /\ (ProcessDashboard.pollingInterval d = None -> d' = d /\ w' = w)
    /\ Engine.inv w0 d' w'.
Proof.
  intros [Hfresh Hinv]. unfold ProcessDashboard.stopPolling.
  destruct (ProcessDashboard.pollingInterval d) as [h|] eqn:Eh.
  - destruct Hinv as [Hh [ms Hm]].
    assert (delete h (timers w) = timers w0) as Hdel
      by (rewrite Hm, delete_insert_eq; now apply delete_id).
    eexists _, _. split; [reflexivity |]. simpl. rewrite Hdel.
    repeat split; try reflexivity; try discriminate.
    unfold Engine.handles_fresh. simpl.
    unfold Engine.handles_fresh in Hfresh. rewrite Hm in Hfresh.
    intros k x Hk. apply (Hfresh k x). rewrite lookup_insert_ne; [exact Hk |].
    intros ->. congruence.
  - exists d, w. split; [reflexivity |].
    repeat split; try assumption; try reflexivity.
    unfold Engine.inv. now rewrite Eh.
Qed.

Lemma inv_frame (w0 : world) (d : ProcessDashboard.t) (w w' : world) :
  timers w' = timers w -> next_timer w' = next_timer w ->
  Engine.inv w0 d w -> Engine.inv w0 d w'.
Proof.
  intros Htim Hnext Hinv.
  unfold Engine.inv, Engine.handles_fresh in *. now rewrite Htim, Hnext.
Qed.

Lemma inv_fire (w0 : world) (d : ProcessDashboard.t) (w : world) (h : positive) :
  Engine.inv w0 d w ->
  exists w', ProcessDashboard.fire d h w = (Ok tt, w') /\ Engine.inv w0 d w'.
Proof.
  intros Hinv. unfold ProcessDashboard.fire.
  destruct (timers w !! h); [| now exists w].
  destruct (tick_frame d w) as (w' & Hrun & _ & Htim & Hnext).
  exists w'. split; [exact Hrun |]. now apply (inv_frame w0 d w w').
Qed.

Lemma inv_fire_begin (w0 : world) (d : ProcessDashboard.t) (w : world)
    (h : positive) :
  Engine.inv w0 d w ->
  exists w', ProcessDashboard.fire_begin d h w = (Ok tt, w') /\ Engine.inv w0 d w'.
Proof.
  intros Hinv. unfold ProcessDashboard.fire_begin.
  destruct (timers w !! h); [| now exists w].
  destruct (tick_begin_frame d w) as (s & w' & Hrun & _ & Htim & Hnext).
  exists w'. unfold mbind, M_bind. rewrite Hrun.
  split; [reflexivity |]. now apply (inv_frame w0 d w w').
Qed.

Lemma inv_arrive (w0 : world) (d : ProcessDashboard.t) (w : world)
    (s : HyperBEAMClient.started) :
  Engine.inv w0 d w ->
  exists w', ProcessDashboard.tick_end d s w = (Ok tt, w') /\ Engine.inv w0 d w'.
Proof.
  intros Hinv. rewrite tick_end_run. eexists. split; [reflexivity |].
  match goal with |- Engine.inv _ _ (emits ?evs ?w1) =>
    destruct (emits_frame evs w1) as (_ & _ & Htim & Hnext & _) end.
  now apply (inv_frame w0 d w).
Qed.

Lemma inv_run (w0 : world) (ops : list Engine.op) :
  forall (d : ProcessDashboard.t) (w : world),
    Engine.inv w0 d w ->
    exists d' w', Engine.run ops d w = (Ok d', w') /\ Engine.inv w0 d' w'.
Proof.
  induction ops as [|o rest IH]; intros d w Hinv.
  - exists d, w. split; [reflexivity | exact Hinv].
  - simpl Engine.run. unfold mbind, M_bind.
    destruct o as [interval| |callback|h|h|s]; simpl Engine.step.
    + destruct (inv_start w0 d w interval Hinv) as (d1 & w1 & -> & _ & _ & _ & Hinv1).
      now apply IH.
    + destruct (inv_stop w0 d w Hinv) as (d1 & w1 & -> & _ & _ & _ & _ & Hinv1).
      now apply IH.
    + apply IH. exact Hinv.
    + destruct (inv_fire w0 d w h Hinv) as (w1 & Hfire & Hinv1).
      unfold mbind, M_bind. rewrite Hfire. now apply IH.
    + destruct (inv_fire_begin w0 d w h Hinv) as (w1 & Hfire & Hinv1).
      unfold mbind, M_bind. rewrite Hfire. now apply IH.
    + destruct (inv_arrive w0 d w s Hinv) as (w1 & Hfire & Hinv1).
      unfold mbind, M_bind. rewrite Hfire. now apply IH.
Qed.

Lemma inv_own_timers (w0 : world) (d : ProcessDashboard.t) (w : world) :
  Engine.inv w0 d w ->
  dom (timers w) ∖ dom (timers w0) = Engine.own_timers d
  /\ dom (timers w0) ⊆ dom (timers w).
Proof.
  intros [_ Hinv]. unfold Engine.own_timers.
  destruct (ProcessDashboard.pollingInterval d) as [h|].
  - destruct Hinv as [Hh [ms ->]]. apply not_elem_of_dom in Hh.
    rewrite dom_insert_L. set_solver.
  - rewrite Hinv. set_solver.
Qed.

(** C7: in every state that a sequence of [startPolling], [stopPolling] and
    [subscribe] calls, of timer firings and of arrivals of the answers to
    the ticks in flight reaches from a new dashboard, the
    timers active beyond those of the initial world are the timers the
    engine holds: none when [pollingInterval] is [null], one otherwise. From
    such a state [startPolling] leaves exactly one such timer, the new one,
    so a start while Polling replaces the timer; [stopPolling] leaves none,
    and when the engine is Idle it changes neither the dashboard nor the
    world. *)
Theorem polling_engine_one_timer (c : HyperBEAMClient.t) (processId : string)
    (ops : list Engine.op) (w0 : world) :
  Engine.handles_fresh w0 ->
  exists d w,
    Engine.run ops (ProcessDashboard.new c processId) w0 = (Ok d, w)
    /\ dom (timers w) ∖ dom (timers w0) = Engine.own_timers d
    /\ (size (dom (timers w) ∖ dom (timers w0)) <= 1)%nat
    /\ dom (timers w0) ⊆ dom (timers w)
    /\ (forall interval, exists d1 w1,
          ProcessDashboard.startPolling d interval w = (Ok d1, w1)
          /\ ProcessDashboard.pollingInterval d1 = Some (next_timer w)
          /\ timers w1 !! next_timer w = Some interval
          /\ dom (timers w1) ∖ dom (timers w0) = {[next_timer w]})
    /\ (exists d2 w2,
          ProcessDashboard.stopPolling d w = (Ok d2, w2)
          /\ ProcessDashboard.pollingInterval d2 = None
          /\ timers w2 = timers w0
          /\ (ProcessDashboard.pollingInterval d = None -> d2 = d /\ w2 = w)).
Proof.
  intros Hfresh.
  assert (Engine.inv w0 (ProcessDashboard.new c processId) w0) as Hinv0
    by (split; [exact Hfresh | reflexivity]).
  destruct (inv_run w0 ops _ _ Hinv0) as (d & w & Hrun & Hinv).
  exists d, w. split; [exact Hrun |].
  destruct (inv_own_timers w0 d w Hinv) as [Hown Hsub].
  split; [exact Hown |]. split; [| split; [exact Hsub | split]].
  - rewrite Hown. unfold Engine.own_timers.
    destruct (ProcessDashboard.pollingInterval d).
    + now rewrite size_singleton.
    + rewrite size_empty. lia.
  - intros interval.
    destruct (inv_start w0 d w interval Hinv) as (d1 & w1 & Hstart & Hp & _ & Htim & Hinv1).
    exists d1, w1. split; [exact Hstart |]. split; [exact Hp |]. split.
    + rewrite Htim. apply lookup_insert_eq.
    + destruct (inv_own_timers w0 d1 w1 Hinv1) as [Hown1 _].
      rewrite Hown1. unfold Engine.own_timers. now rewrite Hp.
  - destruct (inv_stop w0 d w Hinv) as (d2 & w2 & Hstop & Hp & _ & Htim & Hidle & _).
    now exists d2, w2.
Qed.

(** Two starts in a row, with a firing of the first timer in between. *)
Lemma polling_engine_one_timer_witness :
  exists d w,
    Engine.run [Engine.Start 1000; Engine.Fire 1; Engine.Start 1000]
      (ProcessDashboard.new (HyperBEAMClient.new None None None) "proc")
      (answering not_found)
    = (Ok d, w)
    /\ dom (timers w) ∖ dom (timers (answering not_found)) = Engine.own_timers d
    /\ (size (dom (timers w) ∖ dom (timers (answering not_found))) <= 1)%nat.
Proof.
  destruct (polling_engine_one_timer (HyperBEAMClient.new None None None) "proc"
              [Engine.Start 1000; Engine.Fire 1; Engine.Start 1000]
              (answering not_found))
    as (d & w & Hrun & Hown & Hsize & _).
  - apply map_Forall_empty.
  - exists d, w. repeat split; assumption.
Defined.


(** ** [getDashboardData] *)

Lemma await_in_order_collect {A} (nt : nat -> request -> fetch_outcome)
    (conts : list (M A)) (rs : list (result A)) :
  Forall2 (settles_to nt) conts rs ->
  forall (order : list nat) (w : world),
    net w = nt ->
    exists evs,
      Promise.await_in_order conts order w = (collect rs order, emits evs w)
      /\ List.filter is_fetch evs = [].
Proof.
  intros Hall order. induction order as [|i rest IH]; intros w Hnet.
  - exists []. split; reflexivity.
  - simpl Promise.await_in_order. simpl collect.
    destruct (conts !! i) as [m|] eqn:Em.
    + destruct (Forall2_lookup_l _ _ _ _ _ Hall Em) as (r & -> & Hm).
      destruct (Hm w Hnet) as (evs1 & Hrun & Hnf1).
      unfold mbind at 1. unfold M_bind. rewrite Hrun.
      destruct r as [a|e].
      * assert (net (emits evs1 w) = nt) as Hnet1
          by (destruct (emits_frame evs1 w) as (-> & _); exact Hnet).
        destruct (IH (emits evs1 w) Hnet1) as (evs2 & Hrest & Hnf2).
        unfold mbind, M_bind. rewrite Hrest. exists (evs1 ++ evs2).
        rewrite emits_app, List.filter_app, Hnf1, Hnf2.
        split; [| reflexivity].
        destruct (collect rs rest); reflexivity.
      * exists evs1. split; [reflexivity | exact Hnf1].
    + assert (rs !! i = None) as ->.
      { apply lookup_ge_None. apply lookup_ge_None in Em.
        now rewrite <- (Forall2_length _ _ _ Hall). }
      now apply IH.
Qed.

(** The three promises settle in one of the six possible orders. *)
Lemma arrival_order_three (order : list nat) :
  In (Promise.arrival_order 3 order) six_orders.
Proof.
  unfold Promise.arrival_order.
  set (x := List.filter (fun i => Nat.ltb i 3) order ++ List.seq 0 3).
  set (l := List.rev (remove_dups (List.rev x))).
  assert (NoDup l) as Hnd
    by (unfold l; apply NoDup_ListNoDup, List.NoDup_rev, NoDup_ListNoDup,
          NoDup_remove_dups).
  assert (forall i, i ∈ l <-> i ∈ [0; 1; 2]%nat) as Hmem.
  { intros i. unfold l, x. rewrite !list_elem_of_In, <- List.in_rev.
    rewrite <- list_elem_of_In, elem_of_remove_dups, list_elem_of_In.
    rewrite <- List.in_rev, List.in_app_iff, List.filter_In. simpl.
    rewrite Nat.ltb_lt. split; [| tauto].
    intros [[_ Hi] | Hi]; [lia | exact Hi]. }
  assert (l ≡ₚ [0; 1; 2]%nat) as Hperm.
  { apply NoDup_Permutation; [exact Hnd | | exact Hmem].
    repeat constructor; set_solver. }
  pose proof (Permutation_length Hperm) as Hlen.
  destruct l as [|a [|b [|c [|y l']]]]; try discriminate Hlen.
  assert (a < 3 /\ b < 3 /\ c < 3)%nat as (Ha & Hb & Hc).
  { repeat split.
    - assert (a ∈ [0; 1; 2]%nat) as H by (apply Hmem; set_solver).
      apply list_elem_of_In in H. simpl in H. lia.
    - assert (b ∈ [0; 1; 2]%nat) as H by (apply Hmem; set_solver).
      apply list_elem_of_In in H. simpl in H. lia.
    - assert (c ∈ [0; 1; 2]%nat) as H by (apply Hmem; set_solver).
      apply list_elem_of_In in H. simpl in H. lia. }
  apply NoDup_cons in Hnd as [Hab Hnd]. apply NoDup_cons in Hnd as [Hbc _].
  assert (a <> b /\ a <> c /\ b <> c) as (Hab' & Hac' & Hbc') by set_solver.
  assert (a = 0 \/ a = 1 \/ a = 2)%nat as Ha' by lia.
  assert (b = 0 \/ b = 1 \/ b = 2)%nat as Hb' by lia.
  assert (c = 0 \/ c = 1 \/ c = 2)%nat as Hc' by lia.
  destruct Ha' as [-> | [-> | ->]], Hb' as [-> | [-> | ->]], Hc' as [-> | [-> | ->]];
    try congruence; simpl; tauto.
Qed.

(** Each of the six orders is the order in which the promises settle when
    it is the order given. *)
Lemma arrival_order_six (order : list nat) :
  In order six_orders -> Promise.arrival_order 3 order = order.
Proof.
  simpl. intros [<- | [<- | [<- | [<- | [<- | [<- | []]]]]]]; reflexivity.
Qed.

Lemma all_run {A} (nt : nat -> request -> fetch_outcome)
    (conts : list (M A)) (rs : list (result A)) :
  Forall2 (settles_to nt) conts rs ->
  forall (order : list nat) (w : world),
    net w = nt ->
    exists evs,
      Promise.all conts order w = (all_result rs order, emits evs w)
      /\ List.filter is_fetch evs = [].
Proof.
  intros Hall order w Hnet. unfold Promise.all, all_result.
  rewrite <- (Forall2_length _ _ _ Hall).
  destruct (await_in_order_collect nt conts rs Hall
              (Promise.arrival_order (List.length conts) order) w Hnet)
    as (evs & Hrun & Hnf).
  exists evs. unfold mbind, M_bind. rewrite Hrun. split; [| exact Hnf].
  destruct (collect rs _); reflexivity.
Qed.

Lemma all_result_three {A} (r0 r1 : result A) (c : A) (order : list nat) :
  match r0, r1 with
  | Ok s, Ok l => all_result [r0; r1; Ok c] order = Ok [s; l; c]
  | Throw e, Ok _ => all_result [r0; r1; Ok c] order = Throw e
  | Ok _, Throw e => all_result [r0; r1; Ok c] order = Throw e
  | Throw e0, Throw e1 =>
      all_result [r0; r1; Ok c] order
      = if settles_before order 0 1 then Throw e0 else Throw e1
  end.
Proof.
  unfold all_result, settles_before. simpl List.length.
  pose proof (arrival_order_three order) as Hin. simpl in Hin.
  destruct Hin as [<- | [<- | [<- | [<- | [<- | [<- | []]]]]]];
    destruct r0, r1; reflexivity.
Qed.

Lemma started_events_no_fetch (nt : nat -> request -> fetch_outcome)
    (s : HyperBEAMClient.started) :
  List.filter is_fetch (started_events nt s) = [].
Proof. destruct s; [apply settle_events_no_fetch | reflexivity]. Qed.

Lemma get_end_settles (c : HyperBEAMClient.t) (path : string)
    (s : HyperBEAMClient.started) (nt : nat -> request -> fetch_outcome) :
  settles_to nt (HyperBEAMClient.get_end c path no_options s) (started_result nt s).
Proof.
  intros w <-. rewrite get_end_quiet.
  eexists. split; [reflexivity | apply started_events_no_fetch].
Qed.

Lemma best_effort_settles (c : HyperBEAMClient.t) (path : string)
    (s : HyperBEAMClient.started) (nt : nat -> request -> fetch_outcome) :
  settles_to nt
    (try_catch (HyperBEAMClient.get_end c path no_options s) (fun _ => mret VNull))
    (Ok (best_effort (started_result nt s))).
Proof.
  intros w Hnet. destruct (get_end_settles c path s nt w Hnet) as (evs & Hrun & Hnf).
  exists evs. unfold try_catch. rewrite Hrun. split; [| exact Hnf].
  destruct (started_result nt s); reflexivity.
Qed.

Lemma try_bind_run {A B} (m : M A) (k : A -> M B) (h : js_error -> M B) (w : world) :
  try_catch (a ← m; k a) h w
  = match m w with
    | (Ok a, w') => try_catch (k a) h w'
    | (Throw e, w') => h e w'
    end.
Proof.
  unfold try_catch, mbind, M_bind. destruct (m w) as [[a|e] w']; reflexivity.
Qed.

(** C6: [getDashboardData] issues the three requests, for the live state,
    the schedule and the cache, before it reads any answer (the timeout of
    the client is one that [AbortSignal.timeout] accepts). When the first
    two succeed, it returns their values, with the value of the cache
    request, or [null] when that request fails, and the time. When the
    live-state request or the schedule request fails, it throws the error of
    that request; when both fail, the error of the one whose promise
    settles first in [order]. *)
Theorem getDashboardData_best_effort_cache (d : ProcessDashboard.t)
    (order : list nat) (w : world) :
  valid_timeout (ProcessClient.client (ProcessDashboard.process d)) ->
  let pc := ProcessDashboard.process d in
  let c := ProcessClient.client pc in
  let rq0 := HyperBEAMClient.get_request c (ProcessClient.state_path pc) no_options in
  let rq1 := HyperBEAMClient.get_request c (ProcessClient.schedule_path pc) no_options in
  let rq2 := HyperBEAMClient.get_request c (ProcessClient.cache_path pc "") no_options in
  let r0 := settle_result (net w (fetched w) rq0) in
  let r1 := settle_result (net w (S (fetched w)) rq1) in
  let r2 := settle_result (net w (S (S (fetched w))) rq2) in
  exists res evs w',
    ProcessDashboard.getDashboardData d order w = (res, w')
    /\ trace w'
       = trace w
         ++ [EFetch (fetched w) rq0; EFetch (S (fetched w)) rq1;
             EFetch (S (S (fetched w))) rq2]
         ++ evs
    /\ List.filter is_fetch evs = []
    /\ match r0, r1 with
       | Ok state, Ok schedule =>
           res = Ok (ProcessDashboard.mkData state schedule (best_effort r2) (clock w))
       | Throw e, Ok _ => res = Throw e
       | Ok _, Throw e => res = Throw e
       | Throw e0, Throw e1 =>
           res = if settles_before order 0 1 then Throw e0 else Throw e1
       end.
Proof.
  intros Hc pc c rq0 rq1 rq2 r0 r1 r2.
  unfold ProcessDashboard.getDashboardData. cbv zeta. fold pc. fold c.
  rewrite try_bind_run, get_begin_run by exact Hc. cbv beta iota zeta. fold rq0.
  rewrite try_bind_run, get_begin_run by exact Hc. cbv beta iota zeta. fold rq1.
  rewrite try_bind_run, get_begin_run by exact Hc. cbv beta iota zeta. fold rq2.
  rewrite try_bind_run.
  match goal with |- context [Promise.all ?conts order ?w3] =>
    assert (Forall2 (settles_to (net w)) conts [r0; r1; Ok (best_effort r2)]) as Hall;
    [ repeat constructor;
      [ apply (get_end_settles c _ (HyperBEAMClient.Issued (fetched w, rq0)))
      | apply (get_end_settles c _ (HyperBEAMClient.Issued (S (fetched w), rq1)))
      | apply (best_effort_settles c _
                 (HyperBEAMClient.Issued (S (S (fetched w)), rq2))) ]
    | destruct (all_run (net w) conts _ Hall order w3 eq_refl) as (evs & Hrun & Hnf);
      destruct (emits_frame evs w3) as (_ & _ & _ & _ & Hclock & Htr);
      rewrite Hrun; clear Hrun Hall;
      set (w' := emits evs w3) in * ]
  end.
  simpl in Hclock, Htr. rewrite <- !app_assoc in Htr. simpl in Htr.
  pose proof (all_result_three r0 r1 (best_effort r2) order) as Hres.
  clearbody r0 r1 r2.
  assert (forall e : js_error,
            trace (emit (EError "Dashboard data fetch error:" e) w')
            = trace w ++ [EFetch (fetched w) rq0; EFetch (S (fetched w)) rq1;
                          EFetch (S (S (fetched w))) rq2]
                ++ (evs ++ [EError "Dashboard data fetch error:" e])
            /\ List.filter is_fetch (evs ++ [EError "Dashboard data fetch error:" e]) = [])
    as Hfail.
  { intros e. split.
    - simpl. rewrite Htr. now rewrite <- !app_assoc.
    - now rewrite List.filter_app, Hnf. }
  destruct r0 as [state|e0], r1 as [schedule|e1].
  - rewrite Hres. eexists _, evs, w'. split; [reflexivity |].
    split; [exact Htr |]. split; [exact Hnf |].
    simpl. now rewrite Hclock.
  - rewrite Hres. destruct (Hfail e1) as [Htr1 Hnf1].
    eexists _, _, _. split; [reflexivity |]. split; [exact Htr1 |].
    split; [exact Hnf1 | reflexivity].
  - rewrite Hres. destruct (Hfail e0) as [Htr0 Hnf0].
    eexists _, _, _. split; [reflexivity |]. split; [exact Htr0 |].
    split; [exact Hnf0 | reflexivity].
  - rewrite Hres. destruct (settles_before order 0 1).
    + destruct (Hfail e0) as [Htr0 Hnf0].
      eexists _, _, _. split; [reflexivity |]. split; [exact Htr0 |].
      split; [exact Hnf0 | reflexivity].
    + destruct (Hfail e1) as [Htr1 Hnf1].
      eexists _, _, _. split; [reflexivity |]. split; [exact Htr1 |].
      split; [exact Hnf1 | reflexivity].
Qed.

(** The live-state request is rejected and the schedule request is answered
    by 404: the aggregation fails with the error of the one that settles
    first. *)
Lemma getDashboardData_best_effort_cache_witness :
  (exists w',
     ProcessDashboard.getDashboardData observed [1; 0; 2]%nat failing
     = (Throw (Error "HTTP 404: Not Found"), w'))
  /\ (exists w',
        ProcessDashboard.getDashboardData observed [0; 1; 2]%nat failing
        = (Throw (TypeError "fetch failed"), w')).
Proof.
  split.
  - destruct (getDashboardData_best_effort_cache observed [1; 0; 2]%nat failing)
      as (res & evs & w' & Hrun & _ & _ & Hres).
    + unfold valid_timeout. simpl. lia.
    + exists w'. rewrite Hrun. now rewrite Hres.
  - destruct (getDashboardData_best_effort_cache observed [0; 1; 2]%nat failing)
      as (res & evs & w' & Hrun & _ & _ & Hres).
    + unfold valid_timeout. simpl. lia.
    + exists w'. rewrite Hrun. now rewrite Hres.
Defined.



(** * Further properties *)

(** ** The request mediator: successful responses, requests, options *)

Lemma declares_json_iff (r : response) :
  declares_json r = true
  <-> exists contentType,
        content_type r = Some contentType
        /\ Str.includes contentType "application/json" = true.
Proof.
  unfold declares_json. destruct (content_type r) as [contentType|]; split.
  - intros [_ H]%andb_true_iff. now exists contentType.
  - intros (ct & [= <-] & H). rewrite H, andb_true_r.
    destruct (String.eqb_spec contentType ""); [| reflexivity].
    subst. discriminate H.
  - discriminate.
  - intros (ct & H & _). discriminate H.
Qed.

Lemma ok_status (r : response) :
  200 <= status r <= 299 -> response_ok r = true.
Proof.
  intros [H1 H2]. unfold response_ok.
  apply andb_true_iff. split; apply Z.leb_le; assumption.
Qed.

(** X1: on a response with a status in 200..299, [get] and [post] read
    the body once. When the content type contains [application/json], they
    read it as JSON and return what the parse gives, its error included:
    the text is never read. Otherwise, also when no content type is
    declared, they read it as text and return the string. The timeout of
    the client is one that [AbortSignal.timeout] accepts. *)
Theorem success_follows_content_type (c : HyperBEAMClient.t) (path : string)
    (data : jsval) (options : request_options) (w : world) (r : response) :
  valid_timeout c ->
  200 <= status r <= 299 ->
  (forall rq, net w (fetched w) rq = Responds r) ->
  let expected :=
    if declares_json r then json_body r
    else match text_body r with
         | Ok s => Ok (VStr s)
         | Throw e => Throw e
         end in
  let read :=
    if declares_json r then EReadJson (fetched w) else EReadText (fetched w) in
  (declares_json r = true
   <-> exists contentType,
         content_type r = Some contentType
         /\ Str.includes contentType "application/json" = true)
  /\ fst (HyperBEAMClient.get c path options w) = expected
  /\ List.filter is_body_read (trace (snd (HyperBEAMClient.get c path options w)))
     = List.filter is_body_read (trace w) ++ [read]
  /\ fst (HyperBEAMClient.post c path data options w) = expected
  /\ List.filter is_body_read (trace (snd (HyperBEAMClient.post c path data options w)))
     = List.filter is_body_read (trace w) ++ [read].
Proof.
  intros Hc Hstatus Hnet expected read. apply ok_status in Hstatus.
  assert (settle_result (Responds r) = expected) as Hres
    by (unfold settle_result; now rewrite Hstatus).
  assert (settle_events (fetched w) (Responds r) = [read]) as Hev
    by (unfold settle_events, read; rewrite Hstatus; simpl;
        destruct (declares_json r); reflexivity).
  assert (forall label res, List.filter is_body_read (debug_events label options res) = [])
    as Hdebug
    by (intros label [v|e]; simpl; [| destruct (opt_debug options)]; reflexivity).
  split; [apply declares_json_iff |].
  rewrite get_run, post_run by exact Hc. cbv zeta.
  rewrite !Hnet, Hres, Hev. simpl fst. simpl snd.
  repeat split.
  - match goal with |- context [emits ?evs ?w0] =>
      destruct (emits_frame evs w0) as (_ & _ & _ & _ & _ & ->) end.
    simpl trace. rewrite !List.filter_app, Hdebug. simpl.
    unfold read. destruct (declares_json r); simpl; now rewrite !app_nil_r.
  - match goal with |- context [emits ?evs ?w0] =>
      destruct (emits_frame evs w0) as (_ & _ & _ & _ & _ & ->) end.
    simpl trace. rewrite !List.filter_app, Hdebug. simpl.
    unfold read. destruct (declares_json r); simpl; now rewrite !app_nil_r.
Qed.

(** A malformed JSON body is an error of [get], not its text. *)
Lemma success_follows_content_type_witness :
  fst (HyperBEAMClient.get (HyperBEAMClient.new None None None) "/~meta@1.0/info"
         no_options (answering malformed))
  = Throw (SyntaxError "Unexpected end of JSON input").
Proof.
  destruct (success_follows_content_type (HyperBEAMClient.new None None None)
              "/~meta@1.0/info" VUndef no_options (answering malformed) malformed)
    as (_ & Hget & _).
  - unfold valid_timeout. simpl. lia.
  - simpl. lia.
  - intros rq. reflexivity.
  - exact Hget.
Defined.

Lemma debug_events_no_fetch (label : string) (options : request_options)
    (r : result jsval) :
  List.filter is_fetch (debug_events label options r) = [].
Proof. destruct r; simpl; [| destruct (opt_debug options)]; reflexivity. Qed.

Lemma valid_timeout_dec (c : HyperBEAMClient.t) :
  valid_timeout c \/ ~ valid_timeout c.
Proof. unfold valid_timeout. lia. Qed.

(** The request of a call of [get] or [post] whose timeout is accepted is
    the only one it makes. *)
Lemma get_one_fetch (c : HyperBEAMClient.t) (path : string)
    (options : request_options) (w : world) :
  valid_timeout c ->
  List.filter is_fetch (trace (snd (HyperBEAMClient.get c path options w)))
  = List.filter is_fetch (trace w)
    ++ [EFetch (fetched w) (HyperBEAMClient.get_request c path options)]
  /\ fetched (snd (HyperBEAMClient.get c path options w)) = S (fetched w).
Proof.
  intros Hc. rewrite get_run by exact Hc. cbv zeta. simpl snd.
  match goal with |- context [emits ?evs ?w0] =>
    destruct (emits_frame evs w0) as (_ & -> & _ & _ & _ & ->) end.
  simpl. rewrite !List.filter_app, settle_events_no_fetch, debug_events_no_fetch.
  simpl. rewrite app_nil_r. split; reflexivity.
Qed.

Lemma post_one_fetch (c : HyperBEAMClient.t) (path : string) (data : jsval)
    (options : request_options) (w : world) :
  valid_timeout c ->
  List.filter is_fetch (trace (snd (HyperBEAMClient.post c path data options w)))
  = List.filter is_fetch (trace w)
    ++ [EFetch (fetched w)
          (HyperBEAMClient.post_request c path
             (match data with VUndef => VObj [] | _ => data end) options)]
  /\ fetched (snd (HyperBEAMClient.post c path data options w)) = S (fetched w).
Proof.
  intros Hc. rewrite post_run by exact Hc. cbv zeta. simpl snd.
  match goal with |- context [emits ?evs ?w0] =>
    destruct (emits_frame evs w0) as (_ & -> & _ & _ & _ & ->) end.
  simpl. rewrite !List.filter_app, settle_events_no_fetch, debug_events_no_fetch.
  simpl. rewrite app_nil_r. split; reflexivity.
Qed.

(** X2: with a timeout that [AbortSignal.timeout] accepts, whatever the
    network answers, a call of [get] or [post] makes exactly one request and
    never repeats it: a [GET] without body, or a [POST], to the node URL
    followed by the path, under the timeout of the client. With a negative
    timeout the call throws and makes no request. *)
Theorem one_request_per_call (c : HyperBEAMClient.t) (path : string)
    (data : jsval) (options : request_options) (w : world) :
  (valid_timeout c ->
   (exists rq,
      List.filter is_fetch (trace (snd (HyperBEAMClient.get c path options w)))
      = List.filter is_fetch (trace w) ++ [EFetch (fetched w) rq]
      /\ fetched (snd (HyperBEAMClient.get c path options w)) = S (fetched w)
      /\ req_method rq = "GET"
      /\ req_url rq = HyperBEAMClient.nodeUrl c +:+ path
      /\ req_body rq = None
      /\ req_timeout rq = HyperBEAMClient.timeout c)
   /\ (exists rq,
         List.filter is_fetch (trace (snd (HyperBEAMClient.post c path data options w)))
         = List.filter is_fetch (trace w) ++ [EFetch (fetched w) rq]
         /\ fetched (snd (HyperBEAMClient.post c path data options w)) = S (fetched w)
         /\ req_method rq = "POST"
         /\ req_url rq = HyperBEAMClient.nodeUrl c +:+ path
         /\ req_timeout rq = HyperBEAMClient.timeout c))
  /\ (HyperBEAMClient.timeout c < 0 ->
      (exists e, fst (HyperBEAMClient.get c path options w) = Throw e)
      /\ List.filter is_fetch (trace (snd (HyperBEAMClient.get c path options w)))
         = List.filter is_fetch (trace w)
      /\ fetched (snd (HyperBEAMClient.get c path options w)) = fetched w
      /\ (exists e, fst (HyperBEAMClient.post c path data options w) = Throw e)
      /\ List.filter is_fetch (trace (snd (HyperBEAMClient.post c path data options w)))
         = List.filter is_fetch (trace w)
      /\ fetched (snd (HyperBEAMClient.post c path data options w)) = fetched w).
Proof.
  split.
  - intros Hc. split.
    + exists (HyperBEAMClient.get_request c path options).
      destruct (get_one_fetch c path options w Hc) as [-> ->].
      repeat split; reflexivity.
    + eexists. destruct (post_one_fetch c path data options w Hc) as [-> ->].
      repeat split; reflexivity.
  - intros Hneg.
    assert (~ valid_timeout c) as Hc by (unfold valid_timeout; lia).
    rewrite get_refused, post_refused by exact Hc. cbn [fst snd].
    repeat match goal with |- context [emits ?evs ?w0] =>
      destruct (emits_frame evs w0) as (_ & -> & _ & _ & _ & ->) end.
    rewrite !List.filter_app, !debug_events_no_fetch, !app_nil_r.
    repeat split; try reflexivity; eexists; reflexivity.
Qed.

(** A call for the information of the default node makes one request. *)
Lemma one_request_per_call_witness :
  exists rq,
    List.filter is_fetch
      (trace (snd (HyperBEAMClient.get (HyperBEAMClient.new None None None)
                     "/~meta@1.0/info" no_options (answering not_found))))
    = [EFetch 0 rq]
    /\ req_method rq = "GET"
    /\ req_url rq = "http://localhost:10000/~meta@1.0/info".
Proof.
  destruct (one_request_per_call (HyperBEAMClient.new None None None)
              "/~meta@1.0/info" VUndef no_options (answering not_found))
    as [Hvalid _].
  destruct Hvalid as [(rq & Htr & _ & Hm & Hu & _) _].
  - unfold valid_timeout. simpl. lia.
  - exists rq. split; [exact Htr |]. split; [exact Hm | exact Hu].
Defined.

(** X3: the [debug] option changes neither the result of [get] nor its
    request. With the option, a failed call reports the error it throws,
    once, under the label [GET <url> failed:]; a successful call reports
    nothing. *)
Theorem debug_only_reports (c : HyperBEAMClient.t) (path : string)
    (headers : gmap string string) (w : world) :
  let quiet := HyperBEAMClient.get c path (mkOptions headers false) w in
  let loud := HyperBEAMClient.get c path (mkOptions headers true) w in
  fst loud = fst quiet
  /\ List.filter is_report (trace (snd quiet)) = List.filter is_report (trace w)
  /\ trace (snd loud)
     = trace (snd quiet)
       ++ match fst quiet with
          | Throw e =>
              [EError ("GET " +:+ HyperBEAMClient.nodeUrl c +:+ path +:+ " failed:") e]
          | Ok _ => []
          end.
Proof.
  intros quiet loud. subst quiet loud.
  destruct (valid_timeout_dec c) as [Hc | Hc].
  - rewrite !get_run by exact Hc. cbv zeta.
    change (HyperBEAMClient.get_request c path (mkOptions headers true))
      with (HyperBEAMClient.get_request c path (mkOptions headers false)).
    set (rq := HyperBEAMClient.get_request c path (mkOptions headers false)).
    set (o := net w (fetched w) rq). simpl fst. simpl snd.
    repeat match goal with |- context [emits ?evs ?w0] =>
      destruct (emits_frame evs w0) as (_ & _ & _ & _ & _ & ->) end.
    split; [reflexivity |]. split.
    + simpl trace. rewrite !List.filter_app.
      assert (List.filter is_report (settle_events (fetched w) o) = []) as ->.
      { destruct o as [r|e]; simpl; [| reflexivity].
        destruct (negb (response_ok r)); [reflexivity |].
        destruct (declares_json r); reflexivity. }
      destruct (settle_result o); simpl; now rewrite !app_nil_r.
    + destruct (settle_result o); simpl; now rewrite ?app_nil_r, <- ?app_assoc.
  - rewrite !get_refused by exact Hc. simpl.
    split; [reflexivity |]. split; reflexivity.
Qed.

Lemma merged_header_union (options defaults base : gmap string string)
    (name : string) :
  (options ∪ defaults ∪ base) !! name = merged_header options defaults base name.
Proof.
  unfold merged_header. rewrite !lookup_union.
  destruct (options !! name), (defaults !! name), (base !! name); reflexivity.
Qed.

(** X4: in the request of [get] a header of the call's options overrides
    the default header of the same name; in the request of [post] it
    overrides the default header, which overrides the content type
    [application/json] that [post] sets. Names are compared as written.
    These are the requests that the calls make when the timeout of the
    client is one that [AbortSignal.timeout] accepts. *)
Theorem header_precedence (c : HyperBEAMClient.t) (path : string) (data : jsval)
    (options : request_options) (w : world) :
  valid_timeout c ->
  (exists rq,
     List.filter is_fetch (trace (snd (HyperBEAMClient.get c path options w)))
     = List.filter is_fetch (trace w) ++ [EFetch (fetched w) rq]
     /\ forall name,
          req_headers rq !! name
          = merged_header (opt_headers options) (HyperBEAMClient.defaultHeaders c)
              ∅ name)
  /\ (exists rq,
        List.filter is_fetch (trace (snd (HyperBEAMClient.post c path data options w)))
        = List.filter is_fetch (trace w) ++ [EFetch (fetched w) rq]
        /\ forall name,
             req_headers rq !! name
             = merged_header (opt_headers options) (HyperBEAMClient.defaultHeaders c)
                 {["Content-Type" := "application/json"]} name).
Proof.
  intros Hc. split.
  - exists (HyperBEAMClient.get_request c path options).
    destruct (get_one_fetch c path options w Hc) as [-> _].
    split; [reflexivity |].
    intros name. rewrite <- merged_header_union. simpl.
    now rewrite (right_id_L ∅ (∪)).
  - eexists. destruct (post_one_fetch c path data options w Hc) as [-> _].
    split; [reflexivity |].
    intros name. apply merged_header_union.
Qed.

(** A call that sets its own content type: the header of the call wins over
    the one that [post] sets. *)
Lemma header_precedence_witness :
  exists rq,
    List.filter is_fetch
      (trace (snd (HyperBEAMClient.post (HyperBEAMClient.new None None None)
                     "/~meta@1.0/info" (VStr "ping")
                     (mkOptions {["Content-Type" := "text/plain"]} false)
                     (answering not_found))))
    = [EFetch 0 rq]
    /\ req_headers rq !! "Content-Type" = Some "text/plain".
Proof.
  destruct (header_precedence (HyperBEAMClient.new None None None)
              "/~meta@1.0/info" (VStr "ping")
              (mkOptions {["Content-Type" := "text/plain"]} false)
              (answering not_found))
    as [_ (rq & Htr & Hh)].
  - unfold valid_timeout. simpl. lia.
  - exists rq. split; [exact Htr |]. rewrite Hh. reflexivity.
Defined.

(** X5: a client never has an empty node URL or a timeout of zero: the
    constructor keeps a non-empty URL and a non-zero timeout, and replaces
    a missing, empty or zero option by its default,
    [http://localhost:10000] and 30000. *)
Theorem constructor_defaults (o_nodeUrl : option string)
    (o_headers : option (gmap string string)) (o_timeout : option Z)
    (u : string) (n : Z) :
  u <> "" ->
  n <> 0 ->
  HyperBEAMClient.nodeUrl (HyperBEAMClient.new o_nodeUrl o_headers o_timeout) <> ""
  /\ HyperBEAMClient.timeout (HyperBEAMClient.new o_nodeUrl o_headers o_timeout) <> 0
  /\ HyperBEAMClient.new (Some u) o_headers (Some n)
     = HyperBEAMClient.mk u (default ∅ o_headers) n
  /\ HyperBEAMClient.new (Some "") o_headers (Some 0)
     = HyperBEAMClient.mk "http://localhost:10000" (default ∅ o_headers) 30000
  /\ HyperBEAMClient.new None o_headers None
     = HyperBEAMClient.mk "http://localhost:10000" (default ∅ o_headers) 30000.
Proof.
  intros Hu Hn. unfold HyperBEAMClient.new. simpl.
  split; [| split; [| split; [| split; reflexivity]]].
  - destruct o_nodeUrl as [u'|]; [| discriminate].
    destruct (String.eqb_spec u' ""); [discriminate | assumption].
  - destruct o_timeout as [n'|]; [| discriminate].
    destruct (Z.eqb_spec n' 0); [discriminate | assumption].
  - destruct (String.eqb_spec u ""); [contradiction |].
    destruct (Z.eqb_spec n 0); [contradiction | reflexivity].
Qed.

(** A client for a remote node with a timeout of five seconds. *)
Lemma constructor_defaults_witness :
  HyperBEAMClient.new (Some "https://node.example") None (Some 5000)
  = HyperBEAMClient.mk "https://node.example" ∅ 5000.
Proof.
  destruct (constructor_defaults (Some "") None (Some 0) "https://node.example" 5000)
    as (_ & _ & Hkeep & _).
  - discriminate.
  - discriminate.
  - exact Hkeep.
Defined.

(** ** [createTypedQuery] and [buildPath]: errors, numbers, composition *)

Lemma append_entries_throw (params : list (string * jsval)) :
  forall acc,
    (exists e, HyperBEAMUtils.append_entries params acc = Throw e)
    <-> Exists (fun kv => encodable (snd kv) = false) params.
Proof.
  induction params as [|[key value] rest IH]; intros acc; simpl.
  - split; [intros [e He]; discriminate | intros H; inversion H].
  - destruct (typed_pair_cases key value) as [[Henc [[name s] ->]] | [Henc [m ->]]].
    + rewrite IH. split.
      * intros H. now apply Exists_cons_tl.
      * intros H. apply Exists_cons in H as [H | H]; [| exact H].
        simpl in H. congruence.
    + split; [| intros _; now exists (TypeError m)].
      intros _. now apply Exists_cons_hd.
Qed.

Lemma append_entries_TypeError (params : list (string * jsval)) :
  forall acc e,
    HyperBEAMUtils.append_entries params acc = Throw e ->
    exists message, e = TypeError message.
Proof.
  induction params as [|[key value] rest IH]; intros acc e; simpl.
  - discriminate.
  - destruct (typed_pair_cases key value) as [[Henc [[name s] ->]] | [Henc [m ->]]].
    + apply IH.
    + intros [= <-]. now exists m.
Qed.

(** X6: [createTypedQuery] throws exactly when one of the values is not
    encodable: it is [undefined] or [null], or a list or a map in which the
    conversion to a string meets an object with an own property [toString].
    What it throws is a [TypeError] of the engine. [buildPath] throws
    exactly when [createTypedQuery] does, the same error, whatever the
    device and the path. *)
Theorem createTypedQuery_throws_iff_unencodable (device path : string)
    (params : list (string * jsval)) :
  ((exists e, HyperBEAMUtils.createTypedQuery params = Throw e)
   <-> Exists (fun kv => encodable (snd kv) = false) params)
  /\ (forall e, HyperBEAMUtils.createTypedQuery params = Throw e ->
                exists message, e = TypeError message)
  /\ (forall e, HyperBEAMUtils.buildPath device path params = Throw e
                <-> HyperBEAMUtils.createTypedQuery params = Throw e).
Proof.
  split; [| split].
  - rewrite <- (append_entries_throw params URLSearchParams.new).
    unfold HyperBEAMUtils.createTypedQuery.
    destruct (HyperBEAMUtils.append_entries params URLSearchParams.new) as [out|e'];
      split; intros [e He]; try discriminate; now exists e'.
  - intros e. unfold HyperBEAMUtils.createTypedQuery.
    destruct (HyperBEAMUtils.append_entries params URLSearchParams.new) as [out|e'] eqn:E;
      [discriminate |].
    intros [= <-]. now apply (append_entries_TypeError params URLSearchParams.new).
  - intros e. unfold HyperBEAMUtils.buildPath.
    destruct params as [|kv rest].
    + simpl. split; discriminate.
    + change (0 <? Z.of_nat (List.length (kv :: rest))) with true. cbv iota.
      destruct (HyperBEAMUtils.createTypedQuery (kv :: rest)) as [q|e'].
      * split; discriminate.
      * split; intros [= <-]; reflexivity.
Qed.

Lemma encode_app (a b : string) :
  URLSearchParams.encode (a +:+ b)
  = URLSearchParams.encode a +:+ URLSearchParams.encode b.
Proof.
  induction a as [|x a IH]; [reflexivity |].
  rewrite string_app_cons. simpl. now rewrite IH, string_app_assoc.
Qed.

Lemma encode_uint (d : Decimal.uint) :
  URLSearchParams.encode (NilEmpty.string_of_uint d) = NilEmpty.string_of_uint d.
Proof.
  induction d as [|d IH|d IH|d IH|d IH|d IH|d IH|d IH|d IH|d IH|d IH];
    simpl; [reflexivity | rewrite IH; reflexivity ..].
Qed.

(** The decimal notation of an integer is made of characters that the
    serializer leaves as they are. *)
Lemma encode_dec (z : Z) : URLSearchParams.encode (Str.dec z) = Str.dec z.
Proof.
  assert (forall d, URLSearchParams.encode (NilZero.string_of_uint d)
                    = NilZero.string_of_uint d) as Huint.
  { intros d. unfold NilZero.string_of_uint.
    destruct d; [reflexivity | apply encode_uint ..]. }
  unfold Str.dec, NilZero.string_of_int. destruct (Z.to_int z) as [d|d].
  - apply Huint.
  - change (URLSearchParams.encode (String "-" (NilZero.string_of_uint d)))
      with (String "-" (URLSearchParams.encode (NilZero.string_of_uint d))).
    now rewrite Huint.
Qed.

(** X7: a parameter that is a safe integer becomes the pair whose name is
    the key followed by the encoded suffix [%2Binteger] and whose value is
    the decimal notation of the number, written as it is, the sign
    included. *)
Theorem createTypedQuery_number (key : string) (z : Z) :
  safe_integer z ->
  HyperBEAMUtils.createTypedQuery [(key, VNum z)]
  = Ok (URLSearchParams.encode key +:+ "%2Binteger=" +:+ Str.dec z).
Proof.
  intros _.
  change (HyperBEAMUtils.createTypedQuery [(key, VNum z)])
    with (Ok (URLSearchParams.encode (key +:+ "+integer") +:+ "="
              +:+ URLSearchParams.encode (Str.dec z))).
  rewrite encode_app, encode_dec.
  change (URLSearchParams.encode "+integer") with "%2Binteger".
  now rewrite !string_app_assoc.
Qed.

Lemma join_app (sep : string) (l1 l2 : list string) :
  l1 <> [] -> l2 <> [] ->
  Str.join sep (l1 ++ l2) = Str.join sep l1 +:+ sep +:+ Str.join sep l2.
Proof.
  intros H1 H2. induction l1 as [|x l1 IH]; [congruence |].
  destruct l2 as [|y l2]; [congruence |].
  rewrite <- app_comm_cons, join_cons_app.
  destruct l1 as [|x' l1]; [reflexivity |].
  rewrite IH by discriminate.
  rewrite (join_cons2 sep x x' l1). now rewrite !string_app_assoc.
Qed.

(** A negative count. *)
Lemma createTypedQuery_number_witness :
  HyperBEAMUtils.createTypedQuery [("offset", VNum (-7))]
  = Ok (URLSearchParams.encode "offset" +:+ "%2Binteger=" +:+ Str.dec (-7)).
Proof.
  apply (createTypedQuery_number "offset" (-7)).
  unfold safe_integer. lia.
Defined.

(** X8: the query of an object whose properties are those of a first
    object followed by those of a second is the query of the first, [&],
    and the query of the second, when both are non-empty and encode. The
    keys are distinct and none is an array index, so that the properties of
    the object are listed in this order. *)
Theorem createTypedQuery_app (p1 p2 : list (string * jsval)) (q1 q2 : string) :
  insertion_ordered (p1 ++ p2) = true ->
  p1 <> [] ->
  p2 <> [] ->
  HyperBEAMUtils.createTypedQuery p1 = Ok q1 ->
  HyperBEAMUtils.createTypedQuery p2 = Ok q2 ->
  HyperBEAMUtils.createTypedQuery (p1 ++ p2) = Ok (q1 +:+ "&" +:+ q2).
Proof.
  intros _ Hp1 Hp2 H1 H2.
  apply createTypedQuery_spec in H1 as (pairs1 & HF1 & ->).
  apply createTypedQuery_spec in H2 as (pairs2 & HF2 & ->).
  apply createTypedQuery_spec. exists (pairs1 ++ pairs2). split.
  - now apply Forall2_app.
  - unfold URLSearchParams.toString. rewrite List.map_app. symmetry. apply join_app.
    + destruct HF1; [congruence | discriminate].
    + destruct HF2; [congruence | discriminate].
Qed.

(** The tutorial's greeting and count, encoded one after the other. *)
Lemma createTypedQuery_app_witness :
  HyperBEAMUtils.createTypedQuery [("greeting", VStr "Hello"); ("count", VNum 42)]
  = Ok ("greeting=Hello" +:+ "&" +:+ "count%2Binteger=42").
Proof.
  apply (createTypedQuery_app [("greeting", VStr "Hello")] [("count", VNum 42)]).
  - reflexivity.
  - discriminate.
  - discriminate.
  - reflexivity.
  - reflexivity.
Defined.



(** ** [waitForStateChange]: the general loop *)

Section Waiting.

Variable pc : ProcessClient.t.
Variable checkFunction : jsval -> result bool.
Variable maxAttempts : nat.
Variable interval : Z.
Hypothesis valid : valid_timeout (ProcessClient.client pc).

Let rq : request :=
  HyperBEAMClient.get_request (ProcessClient.client pc)
    (ProcessClient.state_path pc) no_options.

Lemma attempt_run (i : nat) (w : world) :
  let o := net w (fetched w) rq in
  let v := judge checkFunction (settle_result o) in
  ProcessClient.attempt pc checkFunction maxAttempts interval i w
  = (attempt_outcome maxAttempts i v,
     emits (settle_events (fetched w) o ++ attempt_tail interval i v) (issued rq w)).
Proof.
  intros o v. subst v. unfold ProcessClient.attempt, try_catch.
  unfold mbind at 1. unfold M_bind.
  rewrite getCurrentState_run by exact valid. cbv zeta. fold rq. fold o.
  rewrite emits_app. unfold judge.
  destruct (settle_result o) as [state|e].
  - unfold mbind at 1. unfold M_bind, lift.
    destruct (checkFunction state) as [[|]|e]; simpl attempt_outcome; simpl attempt_tail.
    + reflexivity.
    + reflexivity.
    + unfold mbind, M_bind, log.
      destruct (Z.of_nat i =? Z.of_nat maxAttempts - 1); reflexivity.
  - simpl attempt_outcome. simpl attempt_tail. unfold mbind, M_bind, log.
    destruct (Z.of_nat i =? Z.of_nat maxAttempts - 1); reflexivity.
Qed.

(** The world after an iteration. *)
Lemma attempt_frame (i : nat) (w : world) :
  exists evs w1,
    ProcessClient.attempt pc checkFunction maxAttempts interval i w
    = (attempt_outcome maxAttempts i
         (judge checkFunction (settle_result (net w (fetched w) rq))), w1)
    /\ net w1 = net w
    /\ fetched w1 = S (fetched w)
    /\ trace w1 = trace w ++ EFetch (fetched w) rq :: evs
    /\ evs = settle_events (fetched w) (net w (fetched w) rq)
             ++ attempt_tail interval i
                  (judge checkFunction (settle_result (net w (fetched w) rq))).
Proof.
  eexists _, _. split; [apply attempt_run |].
  match goal with |- context [emits ?evs ?w0] =>
    destruct (emits_frame evs w0) as (-> & -> & _ & _ & _ & ->) end.
  simpl. rewrite <- app_assoc. repeat split; reflexivity.
Qed.

Lemma attempts_from_first_match (k : nat) :
  forall (remaining i : nat) (w : world) (state : jsval),
    (i + remaining = maxAttempts)%nat ->
    (k < remaining)%nat ->
    (forall j s, (j < k)%nat ->
       judge checkFunction (settle_result (net w (fetched w + j)%nat rq))
       <> Satisfied s) ->
    judge checkFunction (settle_result (net w (fetched w + k)%nat rq))
    = Satisfied state ->
    exists w',
      ProcessClient.attempts_from pc checkFunction maxAttempts interval remaining i w
      = (Ok state, w')
      /\ fetched w' = (fetched w + S k)%nat.
Proof.
  induction k as [|k IH]; intros remaining i w state Hi Hk Hbefore Hmatch.
  - destruct remaining as [|remaining]; [lia |].
    rewrite attempts_from_S.
    destruct (attempt_frame i w) as (evs & w1 & -> & _ & Hfet & _).
    rewrite Nat.add_0_r in Hmatch. rewrite Hmatch. simpl.
    exists w1. split; [reflexivity | lia].
  - destruct remaining as [|remaining]; [lia |].
    rewrite attempts_from_S.
    destruct (attempt_frame i w) as (evs & w1 & -> & Hnet & Hfet & _).
    assert (attempt_outcome maxAttempts i
              (judge checkFunction (settle_result (net w (fetched w) rq))) = Ok None)
      as ->.
    { pose proof (Hbefore 0%nat) as H0. rewrite Nat.add_0_r in H0.
      destruct (judge checkFunction (settle_result (net w (fetched w) rq)))
        as [s| |e]; simpl.
      - exfalso. apply (H0 s); [lia | reflexivity].
      - reflexivity.
      - assert ((Z.of_nat i =? Z.of_nat maxAttempts - 1) = false) as ->
          by (apply Z.eqb_neq; lia).
        reflexivity. }
    cbv iota beta.
    destruct (IH remaining (S i) w1 state) as (w' & Hrun & Hfet').
    + lia.
    + lia.
    + intros j s Hj. rewrite Hnet, Hfet.
      replace (S (fetched w) + j)%nat with (fetched w + S j)%nat by lia.
      apply Hbefore. lia.
    + rewrite Hnet, Hfet.
      replace (S (fetched w) + k)%nat with (fetched w + S k)%nat by lia.
      exact Hmatch.
    + exists w'. split; [exact Hrun | lia].
Qed.

Lemma attempts_from_safe (remaining : nat) :
  forall (i : nat) (w : world),
    exists r w',
      ProcessClient.attempts_from pc checkFunction maxAttempts interval remaining i w
      = (r, w')
      /\ net w' = net w
      /\ (fetched w <= fetched w' <= fetched w + remaining)%nat
      /\ forall s, r = Ok s ->
           checkFunction s = Ok true
           /\ exists j, (j < remaining)%nat
                /\ settle_result (net w (fetched w + j)%nat rq) = Ok s.
Proof.
  induction remaining as [|remaining IH]; intros i w.
  - exists (Throw (ProcessClient.PredicateNotMet maxAttempts)), w.
    split; [reflexivity |]. split; [reflexivity |].
    split; [lia |]. intros s Hs. discriminate Hs.
  - rewrite attempts_from_S.
    destruct (attempt_frame i w) as (evs & w1 & -> & Hnet & Hfet & _).
    assert (exists r w',
              ProcessClient.attempts_from pc checkFunction maxAttempts interval
                remaining (S i) w1 = (r, w')
              /\ net w' = net w
              /\ (fetched w <= fetched w' <= fetched w + S remaining)%nat
              /\ forall s, r = Ok s ->
                   checkFunction s = Ok true
                   /\ exists j, (j < S remaining)%nat
                        /\ settle_result (net w (fetched w + j)%nat rq) = Ok s)
      as Hcont.
    { destruct (IH (S i) w1) as (r2 & w2 & Hrest & Hnet2 & Hfet2 & Hok2).
      exists r2, w2. split; [exact Hrest |]. split; [congruence |].
      split; [lia |].
      intros s Hs. destruct (Hok2 s Hs) as (Hc & j & Hj & Hr).
      split; [exact Hc |]. exists (S j). split; [lia |].
      rewrite Hnet, Hfet in Hr.
      now replace (fetched w + S j)%nat with (S (fetched w) + j)%nat by lia. }
    assert (forall e, exists r w',
              (Throw e : result jsval, w1) = (r, w')
              /\ net w' = net w
              /\ (fetched w <= fetched w' <= fetched w + S remaining)%nat
              /\ forall s, r = Ok s ->
                   checkFunction s = Ok true
                   /\ exists j, (j < S remaining)%nat
                        /\ settle_result (net w (fetched w + j)%nat rq) = Ok s)
      as Hstop.
    { intros e. exists (Throw e), w1. split; [reflexivity |].
      split; [exact Hnet |]. split; [lia |].
      intros s Hs. discriminate Hs. }
    unfold judge.
    destruct (settle_result (net w (fetched w) rq)) as [state|e] eqn:Eo.
    + destruct (checkFunction state) as [[|]|e] eqn:Ec; simpl attempt_outcome.
      * exists (Ok state), w1. split; [reflexivity |].
        split; [exact Hnet |]. split; [lia |].
        intros s [= <-]. split; [exact Ec |]. exists 0%nat. split; [lia |].
        now rewrite Nat.add_0_r.
      * exact Hcont.
      * destruct (Z.of_nat i =? Z.of_nat maxAttempts - 1);
          [apply Hstop | exact Hcont].
    + simpl attempt_outcome.
      destruct (Z.of_nat i =? Z.of_nat maxAttempts - 1);
        [apply Hstop | exact Hcont].
Qed.

End Waiting.

(** With a timeout that [AbortSignal.timeout] refuses, every attempt fails
    before its request: the loop returns no state and makes no request. *)
Lemma attempts_from_refused (pc : ProcessClient.t)
    (checkFunction : jsval -> result bool) (maxAttempts : nat) (interval : Z) :
  ~ valid_timeout (ProcessClient.client pc) ->
  forall (remaining i : nat) (w : world),
    exists e w',
      ProcessClient.attempts_from pc checkFunction maxAttempts interval remaining i w
      = (Throw e, w')
      /\ fetched w' = fetched w.
Proof.
  intros Hc. induction remaining as [|remaining IH]; intros i w.
  - eexists _, w. split; reflexivity.
  - rewrite attempts_from_S.
    assert (ProcessClient.attempt pc checkFunction maxAttempts interval i w
            = (attempt_outcome maxAttempts i (Failed TimeoutOutOfRange),
               emits (attempt_tail interval i (Failed TimeoutOutOfRange)) w)) as ->.
    { unfold ProcessClient.attempt, try_catch. unfold mbind at 1. unfold M_bind.
      unfold ProcessClient.getCurrentState. rewrite get_refused by exact Hc.
      simpl. unfold mbind, M_bind, log.
      destruct (Z.of_nat i =? Z.of_nat maxAttempts - 1); reflexivity. }
    simpl attempt_outcome.
    destruct (Z.of_nat i =? Z.of_nat maxAttempts - 1).
    + eexists _, _. split; reflexivity.
    + cbv iota beta.
      destruct (IH (S i) (emits (attempt_tail interval i (Failed TimeoutOutOfRange)) w))
        as (e & w' & -> & Hfet).
      exists e, w'. split; [reflexivity |]. rewrite Hfet. reflexivity.
Qed.

(** X9: [waitForStateChange] returns the first state that satisfies the
    predicate: when the request of the attempt [k + 1], with [k] below
    [maxAttempts], is the first whose state satisfies it, that state is
    returned after exactly [k + 1] requests, whatever the earlier attempts
    gave (an unsatisfying state, a failed request, a predicate that throws
    an error object). The timeout of the client is one that
    [AbortSignal.timeout] accepts. *)
Theorem waitForStateChange_first_match (pc : ProcessClient.t)
    (checkFunction : jsval -> result bool) (maxAttempts : nat) (interval : Z)
    (w : world) (k : nat) (state : jsval) :
  let rq := HyperBEAMClient.get_request (ProcessClient.client pc)
              (ProcessClient.state_path pc) no_options in
  valid_timeout (ProcessClient.client pc) ->
  (k < maxAttempts)%nat ->
  (forall j s, (j < k)%nat ->
     judge checkFunction (settle_result (net w (fetched w + j)%nat rq))
     <> Satisfied s) ->
  settle_result (net w (fetched w + k)%nat rq) = Ok state ->
  checkFunction state = Ok true ->
  exists w',
    ProcessClient.waitForStateChange pc checkFunction maxAttempts interval w
    = (Ok state, w')
    /\ fetched w' = (fetched w + S k)%nat.
Proof.
  intros rq Hvalid Hk Hbefore Hstate Hcheck.
  apply (attempts_from_first_match pc checkFunction maxAttempts interval Hvalid k
           maxAttempts 0 w state); try assumption; try lia.
  fold rq. rewrite Hstate. simpl. now rewrite Hcheck.
Qed.

(** On the settling network the predicate [is "done"] holds at the third
    attempt. *)
Lemma waitForStateChange_first_match_witness :
  exists w',
    ProcessClient.waitForStateChange
      (ProcessClient.new (HyperBEAMClient.new None None None) "proc")
      (fun state => match state with
                    | VStr s => Ok (String.eqb s "done")
                    | _ => Ok false
                    end)
      5 1000 settling
    = (Ok (VStr "done"), w')
    /\ fetched w' = 3%nat.
Proof.
  apply (waitForStateChange_first_match
           (ProcessClient.new (HyperBEAMClient.new None None None) "proc")
           (fun state => match state with
                         | VStr s => Ok (String.eqb s "done")
                         | _ => Ok false
                         end)
           5 1000 settling 2 (VStr "done")).
  - unfold valid_timeout. simpl. lia.
  - lia.
  - intros j s Hj. destruct j as [|[|j]]; [discriminate | discriminate | lia].
  - reflexivity.
  - reflexivity.
Defined.

(** X10: whatever the timeout of the client is, whatever the network
    answers, and whether the predicate returns or throws an error object,
    [waitForStateChange] makes at most [maxAttempts] requests; a state it
    returns is the answer of one of these requests and satisfies the
    predicate. *)
Theorem waitForStateChange_safe (pc : ProcessClient.t)
    (checkFunction : jsval -> result bool) (maxAttempts : nat) (interval : Z)
    (w : world) :
  let rq := HyperBEAMClient.get_request (ProcessClient.client pc)
              (ProcessClient.state_path pc) no_options in
  exists r w',
    ProcessClient.waitForStateChange pc checkFunction maxAttempts interval w = (r, w')
    /\ (fetched w <= fetched w' <= fetched w + maxAttempts)%nat
    /\ forall s, r = Ok s ->
         checkFunction s = Ok true
         /\ exists j, (j < maxAttempts)%nat
              /\ settle_result (net w (fetched w + j)%nat rq) = Ok s.
Proof.
  intros rq. destruct (valid_timeout_dec (ProcessClient.client pc)) as [Hc | Hc].
  - destruct (attempts_from_safe pc checkFunction maxAttempts interval Hc
                maxAttempts 0 w)
      as (r & w' & Hrun & _ & Hfet & Hok).
    exists r, w'. split; [exact Hrun |]. split; [exact Hfet | exact Hok].
  - destruct (attempts_from_refused pc checkFunction maxAttempts interval Hc
                maxAttempts 0 w)
      as (e & w' & Hrun & Hfet).
    exists (Throw e), w'. split; [exact Hrun |]. split; [lia |].
    intros s Hs. discriminate Hs.
Qed.

Lemma settle_events_no_sleep (n : nat) (o : fetch_outcome) :
  List.filter is_sleep (settle_events n o) = [].
Proof.
  destruct o as [r|e]; simpl; [| reflexivity].
  destruct (negb (response_ok r)); [reflexivity |].
  destruct (declares_json r); reflexivity.
Qed.

Lemma attempts_from_sleeps (pc : ProcessClient.t)
    (checkFunction : jsval -> result bool) (maxAttempts : nat) (interval : Z) :
  valid_timeout (ProcessClient.client pc) ->
  (forall state, checkFunction state = Ok false) ->
  let rq := HyperBEAMClient.get_request (ProcessClient.client pc)
              (ProcessClient.state_path pc) no_options in
  forall (remaining i : nat) (w : world),
    (i + remaining = maxAttempts)%nat ->
    exists evs r w',
      ProcessClient.attempts_from pc checkFunction maxAttempts interval remaining i w
      = (r, w')
      /\ net w' = net w
      /\ trace w' = trace w ++ evs
      /\ List.filter is_sleep evs
         = repeat (ESleep interval) (successes (net w) rq (fetched w) remaining).
Proof.
  intros Hvalid Hnever rq. induction remaining as [|remaining IH]; intros i w Hi.
  - exists [], (Throw (ProcessClient.PredicateNotMet maxAttempts)), w.
    split; [reflexivity |]. split; [reflexivity |].
    split; [now rewrite app_nil_r | reflexivity].
  - rewrite attempts_from_S.
    destruct (attempt_frame pc checkFunction maxAttempts interval Hvalid i w)
      as (evs1 & w1 & -> & Hnet & Hfet & Htr & Hevs).
    fold rq in Hevs, Htr |- *.
    assert (S i + remaining = maxAttempts)%nat as Hi' by lia.
    destruct (IH (S i) w1 Hi') as (evs2 & r2 & w2 & Hrest & Hnet2 & Htr2 & Hsl2).
    rewrite Hnet, Hfet in Hsl2. simpl successes.
    unfold judge in *.
    destruct (settle_result (net w (fetched w) rq)) as [state|e].
    + rewrite Hnever in *. simpl attempt_outcome. cbv iota beta. rewrite Hrest.
      exists ((EFetch (fetched w) rq :: evs1) ++ evs2), r2, w2.
      split; [reflexivity |]. split; [congruence |]. split.
      * rewrite Htr2, Htr. now rewrite <- !app_assoc.
      * rewrite List.filter_app, Hsl2, Hevs. simpl.
        rewrite List.filter_app, settle_events_no_sleep. reflexivity.
    + simpl attempt_outcome.
      destruct (Z.of_nat i =? Z.of_nat maxAttempts - 1) eqn:Elast.
      * assert (remaining = 0)%nat as -> by (apply Z.eqb_eq in Elast; lia).
        exists (EFetch (fetched w) rq :: evs1), (Throw e), w1.
        split; [reflexivity |]. split; [exact Hnet |]. split; [exact Htr |].
        rewrite Hevs. simpl. rewrite List.filter_app, settle_events_no_sleep.
        reflexivity.
      * cbv iota beta. rewrite Hrest.
        exists ((EFetch (fetched w) rq :: evs1) ++ evs2), r2, w2.
        split; [reflexivity |]. split; [congruence |]. split.
        -- rewrite Htr2, Htr. now rewrite <- !app_assoc.
        -- rewrite List.filter_app, Hsl2, Hevs. simpl.
           rewrite List.filter_app, settle_events_no_sleep. reflexivity.
Qed.

(** X11: with a predicate that is never satisfied, [waitForStateChange]
    sleeps for [interval] once after every attempt whose request succeeded,
    the last attempt included, and never after an attempt whose request
    failed: the next attempt follows a failure at once. The timeout of the
    client is one that [AbortSignal.timeout] accepts. *)
Theorem waitForStateChange_sleeps (pc : ProcessClient.t)
    (checkFunction : jsval -> result bool) (maxAttempts : nat) (interval : Z)
    (w : world) :
  valid_timeout (ProcessClient.client pc) ->
  (forall state, checkFunction state = Ok false) ->
  let rq := HyperBEAMClient.get_request (ProcessClient.client pc)
              (ProcessClient.state_path pc) no_options in
  exists evs,
    trace (snd (ProcessClient.waitForStateChange pc checkFunction maxAttempts interval w))
    = trace w ++ evs
    /\ List.filter is_sleep evs
       = repeat (ESleep interval) (successes (net w) rq (fetched w) maxAttempts).
Proof.
  intros Hvalid Hnever rq.
  destruct (attempts_from_sleeps pc checkFunction maxAttempts interval Hvalid Hnever
              maxAttempts 0 w eq_refl) as (evs & r & w' & Hrun & _ & Htr & Hsl).
  exists evs. unfold ProcessClient.waitForStateChange. rewrite Hrun.
  split; [exact Htr | exact Hsl].
Qed.

(** On the flaky network the first of three requests fails: two sleeps. *)
Lemma waitForStateChange_sleeps_witness :
  exists evs,
    trace (snd (ProcessClient.waitForStateChange
                  (ProcessClient.new (HyperBEAMClient.new None None None) "proc")
                  (fun _ => Ok false) 3 1000 flaky))
    = evs
    /\ List.filter is_sleep evs = [ESleep 1000; ESleep 1000].
Proof.
  destruct (waitForStateChange_sleeps
              (ProcessClient.new (HyperBEAMClient.new None None None) "proc")
              (fun _ => Ok false) 3 1000 flaky)
    as (evs & Htr & Hsl).
  - unfold valid_timeout. simpl. lia.
  - intros state. reflexivity.
  - exists evs. split; [exact Htr | exact Hsl].
Defined.


(** ** [ProcessClient]: the views of a process *)

(** X12: [getCacheData(key)] is [getData] on the path [cache/] followed by
    the key, and [getCacheData()] is [getData("cache")]: the same request,
    the same result, the same events. The key goes into the URL as it is
    written: when the timeout of the client is one that
    [AbortSignal.timeout] accepts, the one request of the call is for the
    base path of the process, [/compute/cache] and, after a [/], the key. *)
Theorem getCacheData_is_getData (pc : ProcessClient.t) (key : string) (w : world) :
  ProcessClient.getCacheData pc key w
  = ProcessClient.getData pc
      (if String.eqb key "" then "cache" else "cache/" +:+ key) w
  /\ (valid_timeout (ProcessClient.client pc) ->
      exists rq,
        List.filter is_fetch (trace (snd (ProcessClient.getCacheData pc key w)))
        = List.filter is_fetch (trace w) ++ [EFetch (fetched w) rq]
        /\ req_url rq
           = HyperBEAMClient.nodeUrl (ProcessClient.client pc)
             +:+ ProcessClient.basePath pc +:+ "/compute/cache"
             +:+ (if String.eqb key "" then "" else "/" +:+ key)).
Proof.
  split.
  - unfold ProcessClient.getCacheData, ProcessClient.getData, ProcessClient.cache_path.
    destruct (String.eqb key ""); reflexivity.
  - intros Hc. unfold ProcessClient.getCacheData.
    destruct (get_one_fetch (ProcessClient.client pc) (ProcessClient.cache_path pc key)
                no_options w Hc) as [-> _].
    eexists. split; [reflexivity |].
    simpl. unfold ProcessClient.cache_path.
    destruct (String.eqb key ""); [now rewrite string_app_nil_r | reflexivity].
Qed.

(** The cached entry [balances/alice] of a process of the default node. *)
Lemma getCacheData_is_getData_witness :
  exists rq,
    List.filter is_fetch
      (trace (snd (ProcessClient.getCacheData
                     (ProcessClient.new (HyperBEAMClient.new None None None) "proc")
                     "balances/alice" (answering ready))))
    = [EFetch 0 rq]
    /\ req_url rq
       = "http://localhost:10000/proc~process@1.0/compute/cache/balances/alice".
Proof.
  destruct (getCacheData_is_getData
              (ProcessClient.new (HyperBEAMClient.new None None None) "proc")
              "balances/alice" (answering ready))
    as [_ Hurl].
  destruct Hurl as (rq & Htr & Hu).
  - unfold valid_timeout. simpl. lia.
  - exists rq. split; [exact Htr | exact Hu].
Defined.

(** ** [ProcessDashboard]: subscribers and stopped timers *)

Lemma startPolling_ok (d : ProcessDashboard.t) (interval : Z) (w : world) :
  exists d' w',
    ProcessDashboard.startPolling d interval w = (Ok d', w')
    /\ ProcessDashboard.subscribers d' = ProcessDashboard.subscribers d
    /\ ProcessDashboard.process d' = ProcessDashboard.process d.
Proof.
  unfold ProcessDashboard.startPolling.
  destruct (ProcessDashboard.pollingInterval d); eexists _, _;
    (split; [reflexivity | split; reflexivity]).
Qed.

Lemma stopPolling_ok (d : ProcessDashboard.t) (w : world) :
  exists d' w',
    ProcessDashboard.stopPolling d w = (Ok d', w')
    /\ ProcessDashboard.subscribers d' = ProcessDashboard.subscribers d
    /\ ProcessDashboard.process d' = ProcessDashboard.process d.
Proof.
  unfold ProcessDashboard.stopPolling.
  destruct (ProcessDashboard.pollingInterval d); eexists _, _;
    (split; [reflexivity | split; reflexivity]).
Qed.

Lemma fire_ok (d : ProcessDashboard.t) (h : positive) (w : world) :
  exists w', ProcessDashboard.fire d h w = (Ok tt, w').
Proof.
  unfold ProcessDashboard.fire. destruct (timers w !! h).
  - destruct (tick_frame d w) as (w' & Hrun & _). now exists w'.
  - now exists w.
Qed.

Lemma fire_begin_ok (d : ProcessDashboard.t) (h : positive) (w : world) :
  exists w', ProcessDashboard.fire_begin d h w = (Ok tt, w').
Proof.
  unfold ProcessDashboard.fire_begin. destruct (timers w !! h).
  - destruct (tick_begin_frame d w) as (s & w' & Hrun & _).
    exists w'. unfold mbind, M_bind. now rewrite Hrun.
  - now exists w.
Qed.

(** X13: no [startPolling], no [stopPolling] and no tick, whole or split
    at its [await], removes, repeats or reorders a subscriber, and none of
    them throws: after any sequence of operations the subscribers of the
    dashboard are the ones it had, followed by the callbacks registered
    since, in the order of their registration, a callback registered twice
    being there twice. *)
Theorem subscribers_accumulate (ops : list Engine.op) :
  forall (d : ProcessDashboard.t) (w : world),
    exists d' w',
      Engine.run ops d w = (Ok d', w')
      /\ ProcessDashboard.subscribers d'
         = ProcessDashboard.subscribers d ++ subscribed ops
      /\ ProcessDashboard.process d' = ProcessDashboard.process d.
Proof.
  induction ops as [|o rest IH]; intros d w.
  - exists d, w. split; [reflexivity |]. split; [| reflexivity].
    simpl. now rewrite app_nil_r.
  - simpl Engine.run. unfold mbind at 1. unfold M_bind at 1.
    destruct o as [interval| |callback|h|h|s]; simpl Engine.step.
    + destruct (startPolling_ok d interval w) as (d1 & w1 & -> & Hs & Hp).
      destruct (IH d1 w1) as (d' & w' & Hrun & Hs' & Hp').
      exists d', w'. split; [exact Hrun |].
      split; [rewrite Hs', Hs; reflexivity | congruence].
    + destruct (stopPolling_ok d w) as (d1 & w1 & -> & Hs & Hp).
      destruct (IH d1 w1) as (d' & w' & Hrun & Hs' & Hp').
      exists d', w'. split; [exact Hrun |].
      split; [rewrite Hs', Hs; reflexivity | congruence].
    + destruct (IH (ProcessDashboard.subscribe d callback) w)
        as (d' & w' & Hrun & Hs' & Hp').
      exists d', w'. split; [exact Hrun |]. split; [| exact Hp'].
      rewrite Hs'. simpl. now rewrite <- app_assoc.
    + destruct (fire_ok d h w) as (w1 & Hfire).
      unfold mbind, M_bind. rewrite Hfire.
      destruct (IH d w1) as (d' & w' & Hrun & Hs' & Hp').
      exists d', w'. split; [exact Hrun |]. split; assumption.
    + destruct (fire_begin_ok d h w) as (w1 & Hfire).
      unfold mbind, M_bind. rewrite Hfire.
      destruct (IH d w1) as (d' & w' & Hrun & Hs' & Hp').
      exists d', w'. split; [exact Hrun |]. split; assumption.
    + unfold mbind, M_bind. rewrite tick_end_run.
      match goal with |- context [emits ?evs w] =>
        destruct (IH d (emits evs w)) as (d' & w' & Hrun & Hs' & Hp') end.
      exists d', w'. split; [exact Hrun |]. split; assumption.
Qed.

(** X14: once [stopPolling] has returned, a late firing of a timer that
    the engine had started does nothing: no request, no callback, no
    event. *)
Theorem no_tick_after_stop (c : HyperBEAMClient.t) (processId : string)
    (ops : list Engine.op) (w0 : world) (h : positive) :
  Engine.handles_fresh w0 ->
  timers w0 !! h = None ->
  exists d w d2 w2,
    Engine.run ops (ProcessDashboard.new c processId) w0 = (Ok d, w)
    /\ ProcessDashboard.stopPolling d w = (Ok d2, w2)
    /\ ProcessDashboard.fire d2 h w2 = (Ok tt, w2).
Proof.
  intros Hfresh Hh.
  assert (Engine.inv w0 (ProcessDashboard.new c processId) w0) as Hinv0
    by (split; [exact Hfresh | reflexivity]).
  destruct (inv_run w0 ops _ _ Hinv0) as (d & w & Hrun & Hinv).
  destruct (inv_stop w0 d w Hinv) as (d2 & w2 & Hstop & _ & _ & Htim & _).
  exists d, w, d2, w2. split; [exact Hrun |]. split; [exact Hstop |].
  unfold ProcessDashboard.fire. now rewrite Htim, Hh.
Qed.

(** The first timer of a dashboard, fired after a start and a stop. *)
Lemma no_tick_after_stop_witness :
  exists d w d2 w2,
    Engine.run [Engine.Start 1000]
      (ProcessDashboard.new (HyperBEAMClient.new None None None) "proc")
      (answering not_found) = (Ok d, w)
    /\ ProcessDashboard.stopPolling d w = (Ok d2, w2)
    /\ ProcessDashboard.fire d2 1 w2 = (Ok tt, w2).
Proof.
  apply (no_tick_after_stop (HyperBEAMClient.new None None None) "proc"
           [Engine.Start 1000] (answering not_found) 1%positive).
  - apply map_Forall_empty.
  - reflexivity.
Defined.


(** ** [getDashboardData]: what is reported *)

Lemma await_in_order_within {A} (p : event -> bool)
    (nt : nat -> request -> fetch_outcome)
    (conts : list (M A)) (rs : list (result A)) :
  Forall2 (settles_within p nt) conts rs ->
  forall (order : list nat) (w : world),
    net w = nt ->
    exists evs,
      Promise.await_in_order conts order w = (collect rs order, emits evs w)
      /\ forallb p evs = true.
Proof.
  intros Hall order. induction order as [|i rest IH]; intros w Hnet.
  - exists []. split; reflexivity.
  - simpl Promise.await_in_order. simpl collect.
    destruct (conts !! i) as [m|] eqn:Em.
    + destruct (Forall2_lookup_l _ _ _ _ _ Hall Em) as (r & -> & Hm).
      destruct (Hm w Hnet) as (evs1 & Hrun & Hp1).
      unfold mbind at 1. unfold M_bind. rewrite Hrun.
      destruct r as [a|e].
      * assert (net (emits evs1 w) = nt) as Hnet1
          by (destruct (emits_frame evs1 w) as (-> & _); exact Hnet).
        destruct (IH (emits evs1 w) Hnet1) as (evs2 & Hrest & Hp2).
        unfold mbind, M_bind. rewrite Hrest. exists (evs1 ++ evs2).
        rewrite emits_app, forallb_app, Hp1, Hp2.
        split; [| reflexivity].
        destruct (collect rs rest); reflexivity.
      * exists evs1. split; [reflexivity | exact Hp1].
    + assert (rs !! i = None) as ->.
      { apply lookup_ge_None. apply lookup_ge_None in Em.
        now rewrite <- (Forall2_length _ _ _ Hall). }
      now apply IH.
Qed.

Lemma all_within {A} (p : event -> bool) (nt : nat -> request -> fetch_outcome)
    (conts : list (M A)) (rs : list (result A)) :
  Forall2 (settles_within p nt) conts rs ->
  forall (order : list nat) (w : world),
    net w = nt ->
    exists evs,
      Promise.all conts order w = (all_result rs order, emits evs w)
      /\ forallb p evs = true.
Proof.
  intros Hall order w Hnet. unfold Promise.all, all_result.
  rewrite <- (Forall2_length _ _ _ Hall).
  destruct (await_in_order_within p nt conts rs Hall
              (Promise.arrival_order (List.length conts) order) w Hnet)
    as (evs & Hrun & Hp).
  exists evs. unfold mbind, M_bind. rewrite Hrun. split; [| exact Hp].
  destruct (collect rs _); reflexivity.
Qed.

Lemma settle_events_reads (n : nat) (o : fetch_outcome) :
  forallb is_body_read (settle_events n o) = true.
Proof.
  destruct o as [r|e]; simpl; [| reflexivity].
  destruct (negb (response_ok r)); [reflexivity |].
  destruct (declares_json r); reflexivity.
Qed.

Lemma get_end_reads (c : HyperBEAMClient.t) (path : string)
    (s : HyperBEAMClient.started) (nt : nat -> request -> fetch_outcome) :
  settles_within is_body_read nt (HyperBEAMClient.get_end c path no_options s)
    (started_result nt s).
Proof.
  intros w <-. rewrite get_end_quiet.
  eexists. split; [reflexivity |].
  destruct s; [apply settle_events_reads | reflexivity].
Qed.

Lemma best_effort_reads (c : HyperBEAMClient.t) (path : string)
    (s : HyperBEAMClient.started) (nt : nat -> request -> fetch_outcome) :
  settles_within is_body_read nt
    (try_catch (HyperBEAMClient.get_end c path no_options s) (fun _ => mret VNull))
    (Ok (best_effort (started_result nt s))).
Proof.
  intros w Hnet. destruct (get_end_reads c path s nt w Hnet) as (evs & Hrun & Hp).
  exists evs. unfold try_catch. rewrite Hrun. split; [| exact Hp].
  destruct (started_result nt s); reflexivity.
Qed.

(** X15: up to the moment its promise settles, the events of
    [getDashboardData] are its three requests (the timeout of the client is
    one that [AbortSignal.timeout] accepts), the reads of the bodies of the
    answers that have arrived and, last, the report
    [Dashboard data fetch error:] of the error it throws: a failure is
    reported once, a success reports nothing, and the failure of the cache
    request, which is turned into [null], is reported nowhere. *)
Theorem getDashboardData_reports (d : ProcessDashboard.t) (order : list nat)
    (w : world) :
  valid_timeout (ProcessClient.client (ProcessDashboard.process d)) ->
  let pc := ProcessDashboard.process d in
  let c := ProcessClient.client pc in
  let rq0 := HyperBEAMClient.get_request c (ProcessClient.state_path pc) no_options in
  let rq1 := HyperBEAMClient.get_request c (ProcessClient.schedule_path pc) no_options in
  let rq2 := HyperBEAMClient.get_request c (ProcessClient.cache_path pc "") no_options in
  exists res reads w',
    ProcessDashboard.getDashboardData d order w = (res, w')
    /\ forallb is_body_read reads = true
    /\ trace w'
       = trace w
         ++ [EFetch (fetched w) rq0; EFetch (S (fetched w)) rq1;
             EFetch (S (S (fetched w))) rq2]
         ++ reads
         ++ match res with
            | Ok _ => []
            | Throw e => [EError "Dashboard data fetch error:" e]
            end.
Proof.
  intros Hc pc c rq0 rq1 rq2.
  unfold ProcessDashboard.getDashboardData. cbv zeta. fold pc. fold c.
  rewrite try_bind_run, get_begin_run by exact Hc. cbv beta iota zeta. fold rq0.
  rewrite try_bind_run, get_begin_run by exact Hc. cbv beta iota zeta. fold rq1.
  rewrite try_bind_run, get_begin_run by exact Hc. cbv beta iota zeta. fold rq2.
  rewrite try_bind_run.
  match goal with |- context [Promise.all ?conts order ?w3] =>
    assert (Forall2 (settles_within is_body_read (net w)) conts
              [settle_result (net w (fetched w) rq0);
               settle_result (net w (S (fetched w)) rq1);
               Ok (best_effort (settle_result (net w (S (S (fetched w))) rq2)))])
      as Hall;
    [ repeat constructor;
      [ apply (get_end_reads c _ (HyperBEAMClient.Issued (fetched w, rq0)))
      | apply (get_end_reads c _ (HyperBEAMClient.Issued (S (fetched w), rq1)))
      | apply (best_effort_reads c _
                 (HyperBEAMClient.Issued (S (S (fetched w)), rq2))) ]
    | destruct (all_within is_body_read (net w) conts _ Hall order w3 eq_refl)
        as (reads & Hrun & Hreads);
      destruct (emits_frame reads w3) as (_ & _ & _ & _ & _ & Htr);
      rewrite Hrun; clear Hrun Hall;
      set (w' := emits reads w3) in * ]
  end.
  simpl in Htr. rewrite <- !app_assoc in Htr. simpl in Htr.
  destruct (all_result _ order) as [values|e].
  - eexists _, reads, w'. split; [reflexivity |]. split; [exact Hreads |].
    rewrite Htr. now rewrite app_nil_r.
  - eexists _, reads, _. split; [reflexivity |]. split; [exact Hreads |].
    simpl. rewrite Htr. now rewrite <- !app_assoc.
Qed.

(** The three requests are answered by a text: nothing is reported. *)
Lemma getDashboardData_reports_witness :
  exists res reads w',
    ProcessDashboard.getDashboardData observed [0; 1; 2]%nat (answering ready)
    = (res, w')
    /\ forallb is_body_read reads = true
    /\ trace w'
       = trace (answering ready)
         ++ [EFetch 0 (HyperBEAMClient.get_request (HyperBEAMClient.new None None None)
                         "/proc~process@1.0/now" no_options);
             EFetch 1 (HyperBEAMClient.get_request (HyperBEAMClient.new None None None)
                         "/proc~process@1.0/schedule" no_options);
             EFetch 2 (HyperBEAMClient.get_request (HyperBEAMClient.new None None None)
                         "/proc~process@1.0/compute/cache" no_options)]
         ++ reads
         ++ match res with
            | Ok _ => []
            | Throw e => [EError "Dashboard data fetch error:" e]
            end.
Proof.
  apply (getDashboardData_reports observed [0; 1; 2]%nat (answering ready)).
  unfold valid_timeout. simpl. lia.
Defined.

(** ** [createTypedQuery]: nested values *)

Lemma join_flatten (sep : string) (l rest : list string) :
  l <> [] ->
  Str.join sep (Str.join sep l :: rest) = Str.join sep (l ++ rest).
Proof.
  intros Hl. destruct rest as [|y rest].
  - now rewrite app_nil_r.
  - rewrite join_app by (assumption || discriminate). reflexivity.
Qed.

Lemma Array_join_flatten (l rest : list jsval) :
  l <> [] ->
  Array_join (VArr l :: rest) "," = Array_join (l ++ rest) ",".
Proof.
  intros Hl. unfold Array_join. rewrite map_result_app.
  change (map_result join_element (VArr l :: rest))
    with (match ToString (VArr l) with
          | Ok y =>
              match map_result join_element rest with
              | Ok ys => Ok (y :: ys)
              | Throw e => Throw e
              end
          | Throw e => Throw e
          end).
  rewrite ToString_array. unfold Array_join.
  destruct (map_result join_element l) as [ss|e] eqn:El; [| reflexivity].
  destruct (map_result join_element rest) as [rs|e]; [| reflexivity].
  rewrite join_flatten; [reflexivity |].
  apply map_result_length in El. destruct ss; [| discriminate].
  destruct l; [congruence | discriminate El].
Qed.

Lemma typed_pair_list_flatten (key : string) (l rest : list jsval) :
  l <> [] ->
  HyperBEAMUtils.typed_pair key (VArr (VArr l :: rest))
  = HyperBEAMUtils.typed_pair key (VArr (l ++ rest)).
Proof.
  intros Hl. rewrite !typed_pair_list. now rewrite Array_join_flatten.
Qed.

Lemma typed_pair_list_object (key : string) (m m' : list (string * jsval))
    (pre post : list jsval) :
  has_own "toString" m = false ->
  has_own "toString" m' = false ->
  HyperBEAMUtils.typed_pair key (VArr (pre ++ VObj m :: post))
  = HyperBEAMUtils.typed_pair key (VArr (pre ++ VObj m' :: post)).
Proof.
  intros Hm Hm'. rewrite !typed_pair_list. unfold Array_join.
  rewrite !map_result_app.
  assert (join_element (VObj m) = Ok "[object Object]") as Em
    by (simpl; now rewrite Hm).
  assert (join_element (VObj m') = Ok "[object Object]") as Em'
    by (simpl; now rewrite Hm').
  rewrite (map_result_cons_ok join_element (VObj m) _ post Em).
  rewrite (map_result_cons_ok join_element (VObj m') _ post Em').
  reflexivity.
Qed.

(** X16: a list parameter keeps neither nesting nor objects. A non-empty
    list that is the first element of a list is encoded as if its elements
    stood there themselves, and an object inside a list that has no own
    property [toString] is encoded by a text that does not depend on what
    the object holds. *)
Theorem createTypedQuery_flattens (p1 p2 : list (string * jsval)) (key : string)
    (l rest pre post : list jsval) (m m' : list (string * jsval)) :
  l <> [] ->
  has_own "toString" m = false ->
  has_own "toString" m' = false ->
  HyperBEAMUtils.createTypedQuery (p1 ++ (key, VArr (VArr l :: rest)) :: p2)
  = HyperBEAMUtils.createTypedQuery (p1 ++ (key, VArr (l ++ rest)) :: p2)
  /\ HyperBEAMUtils.createTypedQuery (p1 ++ (key, VArr (pre ++ VObj m :: post)) :: p2)
     = HyperBEAMUtils.createTypedQuery
         (p1 ++ (key, VArr (pre ++ VObj m' :: post)) :: p2).
Proof.
  intros Hl Hm Hm'. unfold HyperBEAMUtils.createTypedQuery. split.
  - now rewrite (append_entries_congr key _ _ p1 p2 (typed_pair_list_flatten key l rest Hl)).
  - now rewrite (append_entries_congr key _ _ p1 p2
                   (typed_pair_list_object key m m' pre post Hm Hm')).
Qed.

(** The list of the lists [1, 2] and [3] is encoded as the list 1, 2, 3. *)
Lemma createTypedQuery_flattens_witness :
  HyperBEAMUtils.createTypedQuery
    [("items", VArr [VArr [VNum 1; VNum 2]; VArr [VNum 3]])]
  = HyperBEAMUtils.createTypedQuery
      [("items", VArr [VNum 1; VNum 2; VArr [VNum 3]])].
Proof.
  apply (createTypedQuery_flattens [] [] "items" [VNum 1; VNum 2] [VArr [VNum 3]]
           [] [] [] []).
  - discriminate.
  - reflexivity.
  - reflexivity.
Defined.
